(** * DICOM pixel pipeline of [convert_dicom_to_dzi.py]

    A shallow embedding of [dicom_to_image] (frame selection, squeeze and
    dimension checks, rescale, windowing, normalisation, photometric
    inversion) and of the frame loop of [convert_dicom_multiframe], with the
    properties the specification states about them.

    Modelling conventions.
    - A NumPy array is a [shape] together with its elements in row-major
      order.  Pixel values are rationals ([Q]): the float64 arithmetic of
      NumPy is modelled by exact arithmetic.  Two rationals are the same
      pixel value when they are [Qeq]; the 8-bit raster is a list of
      integers.  [dicom_to_image] takes the buffer as float64 throughout,
      which it is once the rescale or the clip has run; lines 151-154 on a
      buffer that still has its integer type, where the subtraction wraps
      around, are [normalize_buffer].
    - A [Dataset] gives each header attribute as absent ([None]) or with
      its value, a number or a list of numbers.  An attribute that is in
      the file with an empty value, which pydicom hands out as Python's
      [None] and on which line 132 or line 146 raises [TypeError], has no
      representation: the statements about conversions that succeed take
      the success of lines 130-148 as a hypothesis.
    - A Python exception is an [Err] result carrying the raised error.
    - The output directory is the set of frame indices whose
      [<base>_frame_<idx>.dzi] exists (the file name is injective in the
      index for a fixed base name). *)

From Stdlib Require Import QArith Qabs Qround Qminmax Lqa.
From stdpp Require Import base decidable list gmap strings pretty.

Local Open Scope Z_scope.

(** ** Exceptions *)

Inductive DicomError : Type :=
  | FrameIndexOutOfRange (frame_index : Z) (total_frames : nat)
      (* line 87: ValueError("Frame index {frame_index} out of range
         (0-{total_frames-1})") *)
  | InvalidDimensions1D (original_shape after_squeeze : list nat)
      (* line 101 *)
  | UnsupportedVolume (shape : list nat)
      (* line 113 *)
  | UnsupportedDimensions (shape : list nat)
      (* line 124 *)
  | EmptyReduction
      (* np.min / np.max of a zero-size array raises ValueError *)
  | IndexError.
      (* window_center[0] / window_width[0] of an empty multi-value *)

Inductive Exc (A : Type) : Type :=
  | Ok (a : A)
  | Err (e : DicomError).
Arguments Ok {A} a.
Arguments Err {A} e.

Definition bind {A B} (m : Exc A) (k : A → Exc B) : Exc B :=
  match m with
  | Ok a => k a
  | Err e => Err e
  end.

Notation "'let*' x ':=' m 'in' k" := (bind m (fun x => k))
  (at level 10, x name, m at level 100, k at level 200).

(** ** NumPy arrays *)

Record ndarray (A : Type) : Type := mk_ndarray {
  shape : list nat;
  data : list A
}.
Arguments mk_ndarray {A} shape data.
Arguments shape {A} _.
Arguments data {A} _.

(** Number of elements of an array of a given shape. *)
Definition size_of (sh : list nat) : nat := foldr Nat.mul 1%nat sh.

Definition well_formed {A} (a : ndarray A) : Prop :=
  length (data a) = size_of (shape a).

(** [a[i]] for [0 <= i < shape[0]]: the [i]-th block along the first axis. *)
Definition index0 {A} (a : ndarray A) (i : nat) : ndarray A :=
  let sub := tail (shape a) in
  mk_ndarray sub (take (size_of sub) (drop (i * size_of sub) (data a))).

(** [np.squeeze]: drop every axis of length one; the elements are unchanged. *)
Definition np_squeeze {A} (a : ndarray A) : ndarray A :=
  mk_ndarray (filter (λ d, d ≠ 1%nat) (shape a)) (data a).

(** Element access of 2-D and 3-D arrays (row-major strides). *)
Definition get2 {A} (a : ndarray A) (h w : nat) : option A :=
  match shape a with
  | [_; W] => data a !! (h * W + w)%nat
  | _ => None
  end.

Definition get3 {A} (a : ndarray A) (n h w : nat) : option A :=
  match shape a with
  | [_; H; W] => data a !! (n * (H * W) + h * W + w)%nat
  | _ => None
  end.

(** [np.min] and [np.max] over all elements; they raise on an empty array. *)
Definition np_min (l : list Q) : Exc Q :=
  match l with
  | [] => Err EmptyReduction
  | x :: l' => Ok (fold_left Qmin l' x)
  end.

Definition np_max (l : list Q) : Exc Q :=
  match l with
  | [] => Err EmptyReduction
  | x :: l' => Ok (fold_left Qmax l' x)
  end.

(** [np.clip(x, lo, hi)] is [minimum(maximum(x, lo), hi)]. *)
Definition np_clip (lo hi x : Q) : Q := Qmin (Qmax x lo) hi.

(** [x > 0] on pixel values. *)
Definition Qpositive (x : Q) : bool := negb (Qle_bool x 0).

(** [astype(np.uint8)] of a real value: the fractional part is discarded
    (truncation toward zero) and the integer is reduced to 8 bits. *)
Definition astype_uint8 (x : Q) : Z :=
  Z.quot (Qnum x) (Zpos (Qden x)) mod 256.

(** [255 - raster] on a [uint8] array stays in [uint8]. *)
Definition uint8_rsub (c v : Z) : Z := (c - v) mod 256.

(** ** The dataset *)

(** A header value that may hold one number or several (pydicom's
    [MultiValue]). *)
Inductive DSValue : Type :=
  | DSsingle (v : Q)
  | DSmulti (vs : list Q).

Record Dataset : Type := mk_Dataset {
  pixel_array : ndarray Q;
  RescaleSlope : option Q;
  RescaleIntercept : option Q;
  WindowCenter : option DSValue;
  WindowWidth : option DSValue;
  PhotometricInterpretation : option string;
  PatientID : option string;
  PatientName : option string;
  StudyDate : option string;
  StudyDescription : option string;
  Modality : option string;
  Rows : option Z;
  Columns : option Z;
  BitsStored : option Z
}.

(** ** [dicom_to_image], stage by stage *)

(** Lines 150-154: normalise to the 0-255 range. *)
Definition normalize_to_uint8 (px : list Q) : Exc (list Z) :=
  let* lo := np_min px in
  let shifted := map (λ v, v - lo)%Q px in
  let* hi := np_max shifted in
  let scaled :=
    if Qpositive hi then map (λ v, v / hi)%Q shifted else shifted in
  Ok (map (λ v, astype_uint8 (v * 255)%Q) scaled).

(** Lines 156-160: photometric interpretation, default [MONOCHROME2]. *)
Definition apply_photometric (photometric : string) (raster : list Z) : list Z :=
  if String.eqb photometric "MONOCHROME1"
  then map (uint8_rsub 255) raster
  else raster.

(** Lines 150-160, the Normalizer: normalisation followed by the photometric
    correction. *)
Definition normalize (px : list Q) (photometric : string) : Exc (list Z) :=
  let* raster := normalize_to_uint8 px in
  Ok (apply_photometric photometric raster).

(** Lines 130-132: rescale slope and intercept, applied when the header has
    both attributes. *)
Definition apply_rescale (ds : Dataset) (px : list Q) : list Q :=
  match RescaleSlope ds, RescaleIntercept ds with
  | Some slope, Some intercept => map (λ v, v * slope + intercept)%Q px
  | _, _ => px
  end.

(** Lines 140-143: a multi-valued window attribute contributes its first
    value. *)
Definition first_window_value (v : DSValue) : Exc Q :=
  match v with
  | DSsingle q => Ok q
  | DSmulti [] => Err IndexError
  | DSmulti (q :: _) => Ok q
  end.

(** Lines 146-147: the window bounds. *)
Definition window_bounds (center width : Q) : Q * Q :=
  ((center - width / 2)%Q, (center + width / 2)%Q).

(** Line 148 on the bounds of lines 146-147. *)
Definition clip_to_window (center width : Q) (px : list Q) : list Q :=
  let '(img_min, img_max) := window_bounds center width in
  map (np_clip img_min img_max) px.

(** Lines 134-148: windowing, applied when the header has both attributes. *)
Definition apply_window (ds : Dataset) (px : list Q) : Exc (list Q) :=
  match WindowCenter ds, WindowWidth ds with
  | Some wc, Some ww =>
      let* window_center := first_window_value wc in
      let* window_width := first_window_value ww in
      Ok (clip_to_window window_center window_width px)
  | _, _ => Ok px
  end.

(** Lines 130-148, the RadiometricTransform: rescale, then window. *)
Definition radiometric_transform (ds : Dataset) (px : list Q) : Exc (list Q) :=
  apply_window ds (apply_rescale ds px).

(** Lines 76-93: frame selection.  The result is the selected array (or
    [None] when the function returns early with [None, ds, total_frames])
    and [total_frames]. *)
Definition select_frame (a : ndarray Q) (frame_index : option Z)
  : Exc (option (ndarray Q) * nat) :=
  match shape a with
  | [n; _; w] =>
      if (w =? 3)%nat then Ok (Some a, 1%nat)
      else
        let total_frames := n in
        match frame_index with
        | Some i =>
            if (i <? 0) || (i >=? Z.of_nat total_frames)
            then Err (FrameIndexOutOfRange i total_frames)
            else Ok (Some (index0 a (Z.to_nat i)), total_frames)
        | None =>
            if (total_frames =? 1)%nat
            then Ok (Some (index0 a 0), total_frames)
            else Ok (None, total_frames)
        end
  | _ => Ok (Some a, 1%nat)
  end.

(** Lines 95-128: squeeze, then reject what is not a 2-D or colour image.
    [original_shape] is the shape before frame selection (line 73). *)
Definition check_dimensions (original_shape : list nat) (a : ndarray Q)
  : Exc (ndarray Q) :=
  let a := np_squeeze a in
  match shape a with
  | [_] => Err (InvalidDimensions1D original_shape (shape a))
  | [n; _; w] =>
      if (1 <? n)%nat && negb (w =? 3)%nat
      then Err (UnsupportedVolume (shape a))
      else Ok a
  | _ :: _ :: _ :: _ :: _ => Err (UnsupportedDimensions (shape a))
  | _ => Ok a
  end.

(** Lines 163-168: the mode handed to [Image.fromarray]. *)
Inductive ImageMode : Type := L | RGB.

Definition image_mode (sh : list nat) : ImageMode :=
  if (length sh =? 2)%nat then L else RGB.

(** The 8-bit raster and the mode it is wrapped with.  [Image.fromarray]
    itself belongs to Pillow. *)
Record Raster : Type := mk_Raster {
  mode : ImageMode;
  pixels : ndarray Z
}.

Definition photometric_of (ds : Dataset) : string :=
  default "MONOCHROME2" (PhotometricInterpretation ds).

(** [dicom_to_image(dicom_path, frame_index)] on the dataset read from the
    file: the image (or [None]) and [total_frames]. *)
Definition dicom_to_image (ds : Dataset) (frame_index : option Z)
  : Exc (option Raster * nat) :=
  let original_shape := shape (pixel_array ds) in
  let* sel := select_frame (pixel_array ds) frame_index in
  match sel with
  | (None, total_frames) => Ok (None, total_frames)
  | (Some a, total_frames) =>
      let* a := check_dimensions original_shape a in
      let* px := radiometric_transform ds (data a) in
      let* raster := normalize px (photometric_of ds) in
      Ok (Some (mk_Raster (image_mode (shape a)) (mk_ndarray (shape a) raster)),
          total_frames)
  end.

(** ** [extract_dicom_metadata] *)

Record ImageMetadata : Type := mk_ImageMetadata {
  patient_id : string;
  patient_name : string;
  study_date : string;
  study_description : string;
  modality : string;
  rows : Z;
  columns : Z;
  bits_stored : Z;
  photometric : string
}.

Definition extract_dicom_metadata (ds : Dataset) : ImageMetadata :=
  {| patient_id := default "Unknown" (PatientID ds);
     patient_name := default "Unknown" (PatientName ds);
     study_date := default "Unknown" (StudyDate ds);
     study_description := default "Unknown" (StudyDescription ds);
     modality := default "Unknown" (Modality ds);
     rows := default 0 (Rows ds);
     columns := default 0 (Columns ds);
     bits_stored := default 0 (BitsStored ds);
     photometric := default "Unknown" (PhotometricInterpretation ds) |}.

(** ** [convert_dicom_multiframe] *)

(** The series file written at lines 435-446. *)
Record SeriesManifest : Type := mk_SeriesManifest {
  base_name : string;
  total_frames : nat;
  converted_frames : nat;
  metadata : ImageMetadata;
  tile_size : Z;
  quality : Z
}.

(** What the collaborators do with one frame's raster ([Image.fromarray] at
    lines 163-168, then lines 405-419: the temporary PNG, pyvips' [dzsave],
    [os.unlink]): they finish, or one of them raises, with the frame's
    [.dzi] written or not by then. *)
Inductive TileOutcome : Type :=
  | Tiled
  | TileFailed (dzi_written : bool).

(** The loop state: the output directory, the two counters of lines 388-389
    and the frames handed to [dicom_to_image] so far, in order. *)
Record BatchState : Type := mk_BatchState {
  outputs : gset Z;
  converted_count : nat;
  failed_count : nat;
  extracted : list Z
}.

Definition range (n : nat) : list Z := map Z.of_nat (seq 0 n).

Section Batch.

Variable tile_frame : Z → Raster → TileOutcome.

(** The [try] block of lines 401-427 for one frame. *)
Definition try_frame (ds : Dataset) (frame_idx : Z) : TileOutcome :=
  match dicom_to_image ds (Some frame_idx) with
  | Ok (Some frame_image, _) => tile_frame frame_idx frame_image
  | Ok (None, _) => TileFailed false
  | Err _ => TileFailed false
  end.

(** One iteration of the loop of lines 391-427. *)
Definition process_frame (ds : Dataset) (st : BatchState) (frame_idx : Z)
  : BatchState :=
  if decide (frame_idx ∈ outputs st) then st
  else
    let called := extracted st ++ [frame_idx] in
    match try_frame ds frame_idx with
    | Tiled =>
        mk_BatchState ({[frame_idx]} ∪ outputs st)
          (S (converted_count st)) (failed_count st) called
    | TileFailed written =>
        mk_BatchState
          (if written then {[frame_idx]} ∪ outputs st else outputs st)
          (converted_count st) (S (failed_count st)) called
    end.

Definition frames_to_convert (total_frames : nat) (frame_number : option Z)
  : list Z :=
  match frame_number with
  | Some k => [k]
  | None => range total_frames
  end.

Definition choose_base_name (output_name : option string) (stem : string)
  : string :=
  match output_name with
  | Some name => if String.eqb name "" then stem else name
  | None => stem
  end.

(** [convert_dicom_multiframe]: [file] is the dataset read from
    [dicom_path] ([None] when the file is missing or unreadable), [stem]
    the file's stem, [dir] the output directory before the run.  The
    result is the series file written (or [None] when the function returns
    [False] before writing one) and the final loop state. *)
Definition convert_dicom_multiframe
    (file : option Dataset) (stem : string) (output_name : option string)
    (tile_size quality : Z) (frame_number : option Z) (dir : gset Z)
  : option SeriesManifest * BatchState :=
  let st0 := mk_BatchState dir 0 0 [] in
  match file with
  | None => (None, st0)
  | Some ds =>
      match dicom_to_image ds None with
      | Err _ => (None, st0)
      | Ok (_, total) =>
          if (total =? 1)%nat then (None, st0)
          else
            let st := foldl (process_frame ds) st0
                        (frames_to_convert total frame_number) in
            (Some {| base_name := choose_base_name output_name stem;
                     total_frames := total;
                     converted_frames := converted_count st;
                     metadata := extract_dicom_metadata ds;
                     tile_size := tile_size;
                     quality := quality |}, st)
      end
  end.

End Batch.

(** ** The layout the code assigns to a pixel buffer

    [dicom_to_image] has no layout type of its own: with no frame requested,
    its branches either return early with the frame count (a multi-frame
    stack), raise [ValueError] (an unsupported layout), or reach the
    normalisation with a squeezed array that is wrapped as a grey-scale
    image (mode [L], the 2-D case) or a colour image (mode [RGB]).
    [classify] names these outcomes. *)

Inductive FrameLayout : Type :=
  | Single2D (final_shape : list nat)
  | ColorRGB (final_shape : list nat)
  | MultiFrameStack (N : nat)
  | Unsupported (reason : DicomError).

Definition classify (a : ndarray Q) : FrameLayout :=
  match select_frame a None with
  | Err e => Unsupported e
  | Ok (None, total) => MultiFrameStack total
  | Ok (Some a', _) =>
      match check_dimensions (shape a) a' with
      | Err e => Unsupported e
      | Ok a'' =>
          match image_mode (shape a'') with
          | L => Single2D (shape a'')
          | RGB => ColorRGB (shape a'')
          end
      end
  end.

(** ** Vocabulary of the specification *)

(** [m] is the least (greatest) element of [l]. *)
Definition is_minimum (m : Q) (l : list Q) : Prop :=
  In m l ∧ Forall (λ v, m <= v)%Q l.

Definition is_maximum (m : Q) (l : list Q) : Prop :=
  In m l ∧ Forall (λ v, v <= m)%Q l.

(** The specification's [shifted] array, for the minimum [lo]. *)
Definition shifted_by (lo : Q) (px : list Q) : list Q :=
  map (λ v, v - lo)%Q px.

(** The specification's [scaled] value of a pixel [v], for the minimum [lo]
    of the array and the maximum [hi] of the shifted array. *)
Definition scaled_value (lo hi v : Q) : Q :=
  if Qpositive hi then ((v - lo) / hi)%Q else (v - lo)%Q.

(** Rounding to the nearest integer, ties to the even one ([round] of Python
    and NumPy). *)
Definition round_half_even (x : Q) : Z :=
  let f := Qfloor x in
  match (x - inject_Z f ?= 1 # 2)%Q with
  | Lt => f
  | Gt => f + 1
  | Eq => if Z.even f then f else f + 1
  end.


(** The rescale as the specification words it: applied when a slope or an
    intercept is declared, each absent coefficient being the identity. *)
Definition rescale_independent_defaults (ds : Dataset) (px : list Q) : list Q :=
  match RescaleSlope ds, RescaleIntercept ds with
  | None, None => px
  | slope, intercept =>
      map (λ v, v * default 1%Q slope + default 0%Q intercept)%Q px
  end.

(** The value a window attribute declares: the value itself, or the first
    one when the attribute is a list of windows. *)
Inductive declares : DSValue → Q → Prop :=
  | declares_single (v : Q) : declares (DSsingle v) v
  | declares_first (v : Q) (others : list Q) : declares (DSmulti (v :: others)) v.

(** What happens to a requested frame in a batch run that starts with the
    output directory [dir]. *)
Inductive FrameFate : Type := Skipped | Converted | Failed.

Global Instance FrameFate_eq_dec : EqDecision FrameFate.
Proof. solve_decision. Defined.

Definition fate (tile_frame : Z → Raster → TileOutcome)
    (ds : Dataset) (dir : gset Z) (frame_idx : Z) : FrameFate :=
  if decide (frame_idx ∈ dir) then Skipped
  else match try_frame tile_frame ds frame_idx with
       | Tiled => Converted
       | TileFailed _ => Failed
       end.

Definition count_fate (tile_frame : Z → Raster → TileOutcome)
    (ds : Dataset) (dir : gset Z) (f : FrameFate) (frames : list Z) : nat :=
  length (filter (λ i, fate tile_frame ds dir i = f) frames).

(** Number of requested frames whose output is present in [dir]. *)
Definition count_present (dir : gset Z) (frames : list Z) : nat :=
  length (filter (λ i, i ∈ dir) frames).

(** ** Datasets used in examples *)

Definition bare_dataset (a : ndarray Q) : Dataset :=
  {| pixel_array := a;
     RescaleSlope := None; RescaleIntercept := None;
     WindowCenter := None; WindowWidth := None;
     PhotometricInterpretation := None;
     PatientID := None; PatientName := None; StudyDate := None;
     StudyDescription := None; Modality := None;
     Rows := None; Columns := None; BitsStored := None |}.

Definition with_rescale (slope intercept : option Q) (ds : Dataset) : Dataset :=
  {| pixel_array := pixel_array ds;
     RescaleSlope := slope; RescaleIntercept := intercept;
     WindowCenter := WindowCenter ds; WindowWidth := WindowWidth ds;
     PhotometricInterpretation := PhotometricInterpretation ds;
     PatientID := PatientID ds; PatientName := PatientName ds;
     StudyDate := StudyDate ds; StudyDescription := StudyDescription ds;
     Modality := Modality ds;
     Rows := Rows ds; Columns := Columns ds; BitsStored := BitsStored ds |}.

Definition with_window (center width : option DSValue) (ds : Dataset) : Dataset :=
  {| pixel_array := pixel_array ds;
     RescaleSlope := RescaleSlope ds; RescaleIntercept := RescaleIntercept ds;
     WindowCenter := center; WindowWidth := width;
     PhotometricInterpretation := PhotometricInterpretation ds;
     PatientID := PatientID ds; PatientName := PatientName ds;
     StudyDate := StudyDate ds; StudyDescription := StudyDescription ds;
     Modality := Modality ds;
     Rows := Rows ds; Columns := Columns ds; BitsStored := BitsStored ds |}.

(** A CT slice in Hounsfield units with a soft-tissue window, the second
    window of the list being ignored. *)
Definition ct_slice : Dataset :=
  with_window (Some (DSmulti [40; 300]%Q)) (Some (DSsingle 400%Q))
    (with_rescale (Some 1%Q) (Some (-1024)%Q)
       (bare_dataset (mk_ndarray [2; 2]%nat [1000; 0; 2000; 1100]%Q))).

(** A dataset that declares a slope and no intercept. *)
Definition slope_only : Dataset :=
  with_rescale (Some 2%Q) None (bare_dataset (mk_ndarray [1; 2]%nat [1; 2]%Q)).

(** A stack of [n] frames of 2 x 2 pixels, frame [k] holding the values
    [4k .. 4k+3]. *)
Definition stack (n : nat) : ndarray Q :=
  mk_ndarray [n; 2; 2]%nat (map (λ k, inject_Z (Z.of_nat k)) (seq 0 (n * 4))).

(** Collaborators that fail on the frames listed in [bad]. *)
Definition tiles_failing_on (bad : list Z) (frame_idx : Z) (_ : Raster)
  : TileOutcome :=
  if decide (frame_idx ∈ bad) then TileFailed false else Tiled.

(** ** [format_bytes]

    The argument is a file size, an integer.  The first comparison is made
    on the integer itself; every later value is the float
    [bytes_val / 1024.0 / ...], which is exact for sizes below 2^53 (the
    divisor is a power of two), so the rational model is exact there. *)

(** [x < y] on rationals. *)
Definition Qltb (x y : Q) : bool := negb (Qle_bool y x).

(** [f"{x:.1f}"]: the decimal expansion with one digit after the point,
    correctly rounded (ties to even), with the sign in front. *)
Definition format_1f (x : Q) : string :=
  let tenths := round_half_even (Qabs x * 10)%Q in
  ((if Qltb x 0 then "-" else "")
   ++ pretty (tenths `div` 10) ++ "." ++ pretty (tenths `mod` 10))%string.

(** The loop of lines 50-54: the value and the unit that are printed. *)
Fixpoint scale_to_unit (units : list string) (bytes_val : Q) : Q * string :=
  match units with
  | [] => (bytes_val, "TB")
  | unit :: rest =>
      if Qltb bytes_val 1024 then (bytes_val, unit)
      else scale_to_unit rest (bytes_val / 1024)%Q
  end.

Definition byte_units : list string := ["B"; "KB"; "MB"; "GB"].

Definition format_bytes (bytes_val : Z) : string :=
  let '(v, unit) := scale_to_unit byte_units (inject_Z bytes_val) in
  (format_1f v ++ " " ++ unit)%string.

(** The five units in order, and the power of 1024 each one stands for. *)
Definition all_units : list string := byte_units ++ ["TB"].

(** ** [convert_dicom_to_dzi] *)

(** The file at [dicom_path]: absent, present but not readable as DICOM
    ([dcmread] or [pixel_array] raises), or a dataset. *)
Inductive InputFile : Type :=
  | Missing
  | Unreadable
  | Readable (ds : Dataset).

Definition loaded (file : InputFile) : option Dataset :=
  match file with
  | Readable ds => Some ds
  | _ => None
  end.

(** [response.lower() == 'y']: the only strings whose lower case is ["y"]
    are ["y"] and ["Y"]. *)
Definition answered_yes (response : string) : bool :=
  String.eqb response "y" || String.eqb response "Y".

(** What one call did: the value returned, whether the user was asked about
    overwriting, and the raster handed to the collaborators, if any. *)
Record SingleRun : Type := mk_SingleRun {
  returned : bool;
  prompted : bool;
  handed_over : option Raster
}.

Section Single.

Variable tile_image : Raster → TileOutcome.

(** [convert_dicom_to_dzi]: [dzi_exists] tells whether [<base>.dzi] is
    there, [response] is what the user types when asked. *)
Definition convert_dicom_to_dzi
    (file : InputFile) (dzi_exists : bool) (response : string) : SingleRun :=
  match file with
  | Missing => mk_SingleRun false false None
  | _ =>
      if dzi_exists && negb (answered_yes response)
      then mk_SingleRun false true None
      else
        match file with
        | Readable ds =>
            match dicom_to_image ds None with
            | Ok (Some image, _) =>
                match tile_image image with
                | Tiled => mk_SingleRun true dzi_exists (Some image)
                | TileFailed _ => mk_SingleRun false dzi_exists (Some image)
                end
            | Ok (None, _) => mk_SingleRun false dzi_exists None
            | Err _ => mk_SingleRun false dzi_exists None
            end
        | _ => mk_SingleRun false dzi_exists None
        end
  end.

End Single.

(** ** [main] *)

(** The parsed command line. *)
Record Args : Type := mk_Args {
  arg_output_name : option string;
  arg_tile_size : Z;
  arg_quality : Z;
  arg_overlap : Z;
  arg_all_frames : bool;
  arg_frame : option Z
}.

(** What [main] ran before [sys.exit]. *)
Inductive MainRun : Type :=
  | QualityRejected
  | RanMultiframe (series : option SeriesManifest) (st : BatchState)
  | RanSingle (run : SingleRun).

Definition success (r : MainRun) : bool :=
  match r with
  | QualityRejected => false
  | RanMultiframe series _ => bool_decide (is_Some series)
  | RanSingle run => returned run
  end.

Definition exit_code (r : MainRun) : Z := if success r then 0 else 1.

Section Main.

Variable tile_frame : Z → Raster → TileOutcome.
Variable tile_image : Raster → TileOutcome.

(** [main] after [parse_args]: [file], [stem], [dir], [dzi_exists] and
    [response] describe the input file, the output directory and the user. *)
Definition main (args : Args) (file : InputFile) (stem : string)
    (dir : gset Z) (dzi_exists : bool) (response : string) : MainRun :=
  if negb ((1 <=? arg_quality args) && (arg_quality args <=? 100))
  then QualityRejected
  else if arg_all_frames args || bool_decide (is_Some (arg_frame args))
  then
    let '(series, st) :=
      convert_dicom_multiframe tile_frame (loaded file) stem
        (arg_output_name args) (arg_tile_size args) (arg_quality args)
        (arg_frame args) dir in
    RanMultiframe series st
  else RanSingle (convert_dicom_to_dzi tile_image file dzi_exists response).

End Main.

(** ** Lines 151-154 on a buffer of either kind

    The array that reaches line 151 is a float64 array when the rescale of
    line 132 or the clip of line 148 ran (both produce float64) or when
    the file holds float pixel data; there [normalize_to_uint8] is what
    runs.  Otherwise it is still the integer array that [pixel_array]
    returned, and line 151 subtracts in that array's own fixed-width type,
    silently wrapping around when the difference does not fit.  (Signed
    8-bit data is left out: what [* 255] does to an int8 array depends on
    the NumPy version.) *)

Inductive IntType : Type := UInt8 | UInt16 | Int16 | UInt32 | Int32.

Definition int_bits (t : IntType) : Z :=
  match t with
  | UInt8 => 8
  | UInt16 | Int16 => 16
  | UInt32 | Int32 => 32
  end.

Definition int_signed (t : IntType) : bool :=
  match t with
  | Int16 | Int32 => true
  | UInt8 | UInt16 | UInt32 => false
  end.

Definition int_min_value (t : IntType) : Z :=
  if int_signed t then - 2 ^ (int_bits t - 1) else 0.

Definition int_max_value (t : IntType) : Z :=
  if int_signed t then 2 ^ (int_bits t - 1) - 1 else 2 ^ int_bits t - 1.

(** The value a fixed-width integer operation stores for the exact result
    [z] (two's complement for the signed types). *)
Definition wrap_int (t : IntType) (z : Z) : Z :=
  if int_signed t
  then (z + 2 ^ (int_bits t - 1)) mod 2 ^ int_bits t - 2 ^ (int_bits t - 1)
  else z mod 2 ^ int_bits t.

Inductive PixelBuffer : Type :=
  | FloatPixels (px : list Q)
  | IntPixels (t : IntType) (px : list Z).

(** The pixel values of a buffer, as numbers. *)
Definition pixel_values (b : PixelBuffer) : list Q :=
  match b with
  | FloatPixels px => px
  | IntPixels _ px => map inject_Z px
  end.

Definition int_min (l : list Z) : Exc Z :=
  match l with
  | [] => Err EmptyReduction
  | x :: l' => Ok (fold_left Z.min l' x)
  end.

Definition int_max (l : list Z) : Exc Z :=
  match l with
  | [] => Err EmptyReduction
  | x :: l' => Ok (fold_left Z.max l' x)
  end.

(** Lines 151-154 on an integer array: the subtraction stays in the
    array's type; the division, when it happens, gives float64; without
    it the product by 255 stays in the array's type and the cast keeps its
    low 8 bits. *)
Definition normalize_int (t : IntType) (px : list Z) : Exc (list Z) :=
  let* lo := int_min px in
  let shifted := map (λ v, wrap_int t (v - lo)) px in
  let* hi := int_max shifted in
  if 0 <? hi
  then Ok (map (λ v, astype_uint8 (inject_Z v / inject_Z hi * 255)%Q) shifted)
  else Ok (map (λ v, wrap_int t (v * 255) mod 256) shifted).

Definition normalize_buffer (b : PixelBuffer) : Exc (list Z) :=
  match b with
  | FloatPixels px => normalize_to_uint8 px
  | IntPixels t px => normalize_int t px
  end.

(** Lines 150-160 on a buffer of either kind. *)
Definition normalize_image (b : PixelBuffer) (photometric : string)
  : Exc (list Z) :=
  let* raster := normalize_buffer b in
  Ok (apply_photometric photometric raster).

(** The spread of an integer buffer (greatest minus least value) fits its
    type, so that the subtraction of line 151 does not wrap; a float buffer
    has no such limit. *)
Definition spread_fits (b : PixelBuffer) : Prop :=
  match b with
  | FloatPixels _ => True
  | IntPixels t px => ∀ u v, In u px → In v px → v - u ≤ int_max_value t
  end.

(** * Properties *)

(** ** NumPy primitives *)

Lemma Qmin_cases (x y : Q) : Qmin x y = x ∨ Qmin x y = y.
Proof.
  unfold Qmin, GenericMinMax.gmin. destruct (x ?= y)%Q; auto.
Qed.

Lemma Qmax_cases (x y : Q) : Qmax x y = x ∨ Qmax x y = y.
Proof.
  unfold Qmax, GenericMinMax.gmax. destruct (x ?= y)%Q; auto.
Qed.

Lemma fold_left_Qmin_spec (l : list Q) :
  ∀ x, let m := fold_left Qmin l x in
       In m (x :: l) ∧ (m <= x)%Q ∧ Forall (λ v, m <= v)%Q l.
Proof.
  induction l as [|a l IH]; intros x; simpl.
  - repeat split; [now left | apply Qle_refl | constructor].
  - destruct (IH (Qmin x a)) as (Hin & Hle & Hall).
    assert (Hx : (Qmin x a <= x)%Q) by apply Q.le_min_l.
    assert (Ha : (Qmin x a <= a)%Q) by apply Q.le_min_r.
    repeat split.
    + destruct Hin as [Hin|Hin]; [|now right; right].
      rewrite <- Hin. destruct (Qmin_cases x a) as [->| ->]; [now left|].
      right; now left.
    + eapply Qle_trans; eauto.
    + constructor; [eapply Qle_trans; eauto | exact Hall].
Qed.

Lemma fold_left_Qmax_spec (l : list Q) :
  ∀ x, let m := fold_left Qmax l x in
       In m (x :: l) ∧ (x <= m)%Q ∧ Forall (λ v, v <= m)%Q l.
Proof.
  induction l as [|a l IH]; intros x; simpl.
  - repeat split; [now left | apply Qle_refl | constructor].
  - destruct (IH (Qmax x a)) as (Hin & Hle & Hall).
    assert (Hx : (x <= Qmax x a)%Q) by apply Q.le_max_l.
    assert (Ha : (a <= Qmax x a)%Q) by apply Q.le_max_r.
    repeat split.
    + destruct Hin as [Hin|Hin]; [|now right; right].
      rewrite <- Hin. destruct (Qmax_cases x a) as [->| ->]; [now left|].
      right; now left.
    + eapply Qle_trans; eauto.
    + constructor; [eapply Qle_trans; eauto | exact Hall].
Qed.

(** [np.min] returns the least element of a non-empty array. *)
Lemma np_min_spec (l : list Q) :
  l ≠ [] → ∃ m, np_min l = Ok m ∧ is_minimum m l.
Proof.
  destruct l as [|x l]; [congruence|]. intros _.
  destruct (fold_left_Qmin_spec l x) as (Hin & Hle & Hall).
  eexists; split; [reflexivity|]. split; [exact Hin|].
  constructor; assumption.
Qed.

Lemma np_max_spec (l : list Q) :
  l ≠ [] → ∃ m, np_max l = Ok m ∧ is_maximum m l.
Proof.
  destruct l as [|x l]; [congruence|]. intros _.
  destruct (fold_left_Qmax_spec l x) as (Hin & Hle & Hall).
  eexists; split; [reflexivity|]. split; [exact Hin|].
  constructor; assumption.
Qed.

(** On values in the 8-bit range the cast is the integer part. *)
Lemma astype_uint8_floor (x : Q) :
  (0 <= x)%Q → (x <= 255)%Q → astype_uint8 x = Qfloor x ∧ 0 ≤ Qfloor x ≤ 255.
Proof.
  intros H0 H255.
  assert (Hf0 : 0 ≤ Qfloor x).
  { change 0 with (Qfloor (inject_Z 0)). rewrite Qfloor_Z.
    rewrite <- (Qfloor_Z 0). now apply Qfloor_resp_le. }
  assert (Hf255 : Qfloor x ≤ 255).
  { rewrite <- (Qfloor_Z 255). now apply Qfloor_resp_le. }
  split; [|lia].
  unfold astype_uint8. destruct x as [n d]; simpl in *.
  assert (Hn : 0 ≤ n).
  { unfold Qle in H0; simpl in H0. lia. }
  rewrite Z.quot_div_nonneg by lia.
  apply Z.mod_small. lia.
Qed.

Lemma astype_uint8_range (x : Q) : 0 ≤ astype_uint8 x ≤ 255.
Proof.
  unfold astype_uint8.
  pose proof (Z.mod_pos_bound (Qnum x ÷ Z.pos (Qden x)) 256). lia.
Qed.

Lemma Qpositive_true (x : Q) : Qpositive x = true ↔ (0 < x)%Q.
Proof.
  unfold Qpositive. rewrite negb_true_iff.
  destruct (Qle_bool x 0) eqn:E.
  - apply Qle_bool_iff in E. split; [discriminate | intros; lra].
  - split; [intros _ | reflexivity].
    apply Qnot_le_lt. intros H. apply Qle_bool_iff in H. congruence.
Qed.

Lemma Qpositive_false (x : Q) : Qpositive x = false ↔ (x <= 0)%Q.
Proof.
  unfold Qpositive. rewrite negb_false_iff. apply Qle_bool_iff.
Qed.

(** ** The Normalizer *)

(** The three array passes of lines 151-154 as one pass over the pixels. *)
Lemma normalize_to_uint8_pointwise (px : list Q) (lo hi : Q) :
  np_min px = Ok lo →
  np_max (shifted_by lo px) = Ok hi →
  normalize_to_uint8 px
  = Ok (map (λ v, astype_uint8 (scaled_value lo hi v * 255)%Q) px).
Proof.
  intros Hlo Hhi. unfold normalize_to_uint8, shifted_by in *.
  rewrite Hlo; simpl. rewrite Hhi; simpl. f_equal.
  unfold scaled_value. destruct (Qpositive hi).
  - rewrite !map_map. reflexivity.
  - rewrite map_map. reflexivity.
Qed.

Lemma normalize_extrema (px : list Q) :
  px ≠ [] →
  ∃ lo hi, np_min px = Ok lo ∧ is_minimum lo px ∧
           np_max (shifted_by lo px) = Ok hi ∧
           is_maximum hi (shifted_by lo px).
Proof.
  intros Hne. destruct (np_min_spec px Hne) as (lo & Hlo & Hmin).
  assert (Hne' : shifted_by lo px ≠ []).
  { unfold shifted_by. destruct px; [congruence | discriminate]. }
  destruct (np_max_spec _ Hne') as (hi & Hhi & Hmax).
  exists lo, hi. auto.
Qed.

(** Every scaled pixel, times 255, lies in the 8-bit range. *)
Lemma scaled_in_range (px : list Q) (lo hi v : Q) :
  is_minimum lo px → is_maximum hi (shifted_by lo px) → In v px →
  (0 <= scaled_value lo hi v * 255 ∧ scaled_value lo hi v * 255 <= 255)%Q.
Proof.
  intros [_ Hmin] [_ Hmax] Hv.
  rewrite List.Forall_forall in Hmin. specialize (Hmin v Hv). simpl in Hmin.
  rewrite List.Forall_forall in Hmax.
  assert (Hs : (v - lo <= hi)%Q).
  { apply (Hmax (v - lo)%Q). unfold shifted_by.
    apply (in_map (λ v, v - lo)%Q). exact Hv. }
  unfold scaled_value. destruct (Qpositive hi) eqn:E.
  - apply Qpositive_true in E.
    assert (H0 : (0 <= (v - lo) / hi)%Q).
    { apply Qle_shift_div_l; [exact E | lra]. }
    assert (H1 : ((v - lo) / hi <= 1)%Q).
    { apply Qle_shift_div_r; [exact E | lra]. }
    set (t := ((v - lo) / hi)%Q) in *. split; lra.
  - apply Qpositive_false in E. split; lra.
Qed.

Lemma normalize_to_uint8_floor (px : list Q) (lo hi : Q) :
  np_min px = Ok lo → is_minimum lo px →
  np_max (shifted_by lo px) = Ok hi → is_maximum hi (shifted_by lo px) →
  normalize_to_uint8 px
  = Ok (map (λ v, Qfloor (scaled_value lo hi v * 255)%Q) px).
Proof.
  intros Hlo Hmin Hhi Hmax.
  rewrite (normalize_to_uint8_pointwise px lo hi Hlo Hhi). f_equal.
  apply map_ext_in. intros v Hv.
  destruct (scaled_in_range px lo hi v Hmin Hmax Hv) as [H0 H255].
  apply astype_uint8_floor; assumption.
Qed.

(** The un-inverted raster holds 8-bit values. *)
Lemma normalize_to_uint8_range (px : list Q) (raster : list Z) :
  normalize_to_uint8 px = Ok raster → Forall (λ v, 0 ≤ v ≤ 255) raster.
Proof.
  unfold normalize_to_uint8. destruct (np_min px) as [lo|]; [simpl|discriminate].
  destruct (np_max _) as [hi|]; [simpl|discriminate].
  intros [= <-]. apply List.Forall_forall. intros z Hz.
  apply in_map_iff in Hz. destruct Hz as (q & <- & _).
  apply astype_uint8_range.
Qed.

(** *** Integer buffers *)

Lemma fold_left_Zmin_spec (l : list Z) :
  ∀ x, let m := fold_left Z.min l x in
       In m (x :: l) ∧ m ≤ x ∧ Forall (λ v, m ≤ v) l.
Proof.
  induction l as [|a l IH]; intros x; simpl.
  - repeat split; [now left | lia | constructor].
  - destruct (IH (Z.min x a)) as (Hin & Hle & Hall). repeat split.
    + destruct Hin as [Hin|Hin]; [|now right; right].
      rewrite <- Hin. destruct (Z.min_spec x a) as [[_ ->]|[_ ->]];
        [now left | right; now left].
    + lia.
    + constructor; [lia | exact Hall].
Qed.

Lemma fold_left_Zmax_spec (l : list Z) :
  ∀ x, let m := fold_left Z.max l x in
       In m (x :: l) ∧ x ≤ m ∧ Forall (λ v, v ≤ m) l.
Proof.
  induction l as [|a l IH]; intros x; simpl.
  - repeat split; [now left | lia | constructor].
  - destruct (IH (Z.max x a)) as (Hin & Hle & Hall). repeat split.
    + destruct Hin as [Hin|Hin]; [|now right; right].
      rewrite <- Hin. destruct (Z.max_spec x a) as [[_ ->]|[_ ->]];
        [right; now left | now left].
    + lia.
    + constructor; [lia | exact Hall].
Qed.

Lemma int_min_spec (l : list Z) :
  l ≠ [] → ∃ m, int_min l = Ok m ∧ In m l ∧ Forall (λ v, m ≤ v) l.
Proof.
  destruct l as [|x l]; [congruence|]. intros _.
  destruct (fold_left_Zmin_spec l x) as (Hin & Hle & Hall).
  eexists; split; [reflexivity|]. split; [exact Hin|].
  constructor; assumption.
Qed.

Lemma int_max_spec (l : list Z) :
  l ≠ [] → ∃ m, int_max l = Ok m ∧ In m l ∧ Forall (λ v, v ≤ m) l.
Proof.
  destruct l as [|x l]; [congruence|]. intros _.
  destruct (fold_left_Zmax_spec l x) as (Hin & Hle & Hall).
  eexists; split; [reflexivity|]. split; [exact Hin|].
  constructor; assumption.
Qed.

(** A result that fits the type is stored as it is. *)
Lemma wrap_int_in_range (t : IntType) (z : Z) :
  int_min_value t ≤ z ≤ int_max_value t → wrap_int t z = z.
Proof.
  unfold wrap_int, int_min_value, int_max_value.
  destruct t; cbn [int_signed int_bits]; intros Hz.
  - change (2 ^ 8) with 256 in *. apply Z.mod_small. lia.
  - change (2 ^ 16) with 65536 in *. apply Z.mod_small. lia.
  - change (2 ^ (16 - 1)) with 32768 in *. change (2 ^ 16) with 65536.
    rewrite Z.mod_small; lia.
  - change (2 ^ 32) with 4294967296 in *. apply Z.mod_small. lia.
  - change (2 ^ (32 - 1)) with 2147483648 in *.
    change (2 ^ 32) with 4294967296. rewrite Z.mod_small; lia.
Qed.

Lemma int_min_value_nonpos (t : IntType) : int_min_value t ≤ 0.
Proof. destruct t; vm_compute; discriminate. Qed.

Lemma int_max_value_nonneg (t : IntType) : 0 ≤ int_max_value t.
Proof. destruct t; vm_compute; discriminate. Qed.

Lemma inject_Z_minus (x y : Z) : inject_Z (x - y) = (inject_Z x - inject_Z y)%Q.
Proof.
  unfold Z.sub, Qminus. now rewrite inject_Z_plus, inject_Z_opp.
Qed.

(** An integer buffer whose spread fits its type is normalised like the
    same numbers in floating point. *)
Lemma normalize_int_floor (t : IntType) (px : list Z) :
  px ≠ [] →
  (∀ u v, In u px → In v px → v - u ≤ int_max_value t) →
  ∃ lo hi,
    is_minimum lo (map inject_Z px) ∧
    is_maximum hi (shifted_by lo (map inject_Z px)) ∧
    normalize_int t px
    = Ok (map (λ v, Qfloor (scaled_value lo hi v * 255)%Q) (map inject_Z px)).
Proof.
  intros Hne Hfit.
  destruct (int_min_spec px Hne) as (lo & Hlo & Hlo_in & Hlo_le).
  rewrite List.Forall_forall in Hlo_le.
  assert (Hshift : map (λ v, wrap_int t (v - lo)) px = map (λ v, v - lo) px).
  { apply map_ext_in. intros v Hv. apply wrap_int_in_range.
    pose proof (Hlo_le v Hv). pose proof (Hfit lo v Hlo_in Hv).
    pose proof (int_min_value_nonpos t). cbv beta in *. lia. }
  assert (Hne' : map (λ v, v - lo) px ≠ []).
  { destruct px; [congruence | discriminate]. }
  destruct (int_max_spec _ Hne') as (hi & Hhi & Hhi_in & Hhi_le).
  rewrite List.Forall_forall in Hhi_le.
  apply in_map_iff in Hhi_in as (top & Htop & Htop_in).
  assert (Htop_le : ∀ v, In v px → v ≤ top).
  { intros v Hv.
    pose proof (Hhi_le (v - lo) (in_map (λ v, v - lo) px v Hv)).
    cbv beta in *. lia. }
  set (loq := inject_Z lo). set (hiq := (inject_Z top - inject_Z lo)%Q).
  assert (Hmin : is_minimum loq (map inject_Z px)).
  { split; [now apply in_map|]. apply List.Forall_forall. intros q Hq.
    apply in_map_iff in Hq as (v & <- & Hv). unfold loq.
    rewrite <- Zle_Qle. now apply Hlo_le. }
  assert (Hmax : is_maximum hiq (shifted_by loq (map inject_Z px))).
  { split.
    - unfold shifted_by. apply (in_map (λ v, v - loq)%Q _ (inject_Z top)).
      now apply in_map.
    - apply List.Forall_forall. intros q Hq. unfold shifted_by in Hq.
      apply in_map_iff in Hq as (q' & <- & Hq').
      apply in_map_iff in Hq' as (v & <- & Hv). unfold hiq, loq.
      rewrite <- !inject_Z_minus, <- Zle_Qle.
      pose proof (Htop_le v Hv). lia. }
  exists loq, hiq. split; [exact Hmin|]. split; [exact Hmax|].
  unfold normalize_int. rewrite Hlo. cbn [bind]. rewrite Hshift, Hhi.
  cbn [bind].
  assert (Hhiq : (hiq == inject_Z hi)%Q).
  { unfold hiq. rewrite <- inject_Z_minus, Htop. reflexivity. }
  assert (Hrange : ∀ v, In v px →
            (0 <= scaled_value loq hiq (inject_Z v) * 255 ∧
             scaled_value loq hiq (inject_Z v) * 255 <= 255)%Q).
  { intros v Hv. apply (scaled_in_range (map inject_Z px)); try assumption.
    now apply in_map. }
  destruct (Z.ltb_spec 0 hi) as [Hpos|Hzero];
    rewrite !map_map; f_equal; apply map_ext_in; intros v Hv;
    destruct (Hrange v Hv) as [H0 H255].
  - assert (Hq : (inject_Z (v - lo) / inject_Z hi * 255
                  == scaled_value loq hiq (inject_Z v) * 255)%Q).
    { unfold scaled_value.
      assert (Hp : Qpositive hiq = true).
      { apply Qpositive_true. rewrite Hhiq.
        change 0%Q with (inject_Z 0). rewrite <- Zlt_Qlt. exact Hpos. }
      rewrite Hp, Hhiq, inject_Z_minus. reflexivity. }
    rewrite <- Hq in H0, H255.
    rewrite (proj1 (astype_uint8_floor _ H0 H255)).
    apply Qfloor_comp. exact Hq.
  - assert (Hv0 : v - lo = 0).
    { pose proof (Hlo_le v Hv). pose proof (Htop_le v Hv).
      pose proof (Hlo_le top Htop_in). cbv beta in *. lia. }
    rewrite Hv0. change (0 * 255) with 0.
    rewrite (wrap_int_in_range t 0)
      by (pose proof (int_min_value_nonpos t);
          pose proof (int_max_value_nonneg t); lia).
    assert (Hq : (scaled_value loq hiq (inject_Z v) * 255 == inject_Z 0)%Q).
    { unfold scaled_value.
      assert (Hp : Qpositive hiq = false).
      { apply Qpositive_false. rewrite Hhiq.
        change 0%Q with (inject_Z 0). rewrite <- Zle_Qle. exact Hzero. }
      rewrite Hp. unfold loq. rewrite <- inject_Z_minus, Hv0.
      unfold inject_Z. ring. }
    rewrite (Qfloor_comp _ _ Hq), Qfloor_Z. reflexivity.
Qed.

(** The three array passes of lines 151-154 on a buffer of either kind
    whose spread fits its type. *)
Lemma normalize_buffer_floor (b : PixelBuffer) :
  pixel_values b ≠ [] → spread_fits b →
  ∃ lo hi,
    is_minimum lo (pixel_values b) ∧
    is_maximum hi (shifted_by lo (pixel_values b)) ∧
    normalize_buffer b
    = Ok (map (λ v, Qfloor (scaled_value lo hi v * 255)%Q) (pixel_values b)).
Proof.
  destruct b as [px|t px]; simpl; intros Hne Hfit.
  - destruct (normalize_extrema px Hne) as (lo & hi & Hlo & Hmin & Hhi & Hmax).
    exists lo, hi. split; [exact Hmin|]. split; [exact Hmax|].
    now apply normalize_to_uint8_floor.
  - apply normalize_int_floor; [|exact Hfit].
    intros ->. now apply Hne.
Qed.

Lemma floor_raster_range (vals : list Q) (lo hi : Q) :
  is_minimum lo vals → is_maximum hi (shifted_by lo vals) →
  Forall (λ v, 0 ≤ Qfloor (scaled_value lo hi v * 255)%Q ≤ 255) vals.
Proof.
  intros Hmin Hmax. apply List.Forall_forall. intros v Hv.
  destruct (scaled_in_range vals lo hi v Hmin Hmax Hv) as [H0 H255].
  now apply astype_uint8_floor.
Qed.



(** The subtraction of line 151 wraps around on an int16 array that spans
    more than 32767: the pixel 20000 is stored as 187 and the pixel 1 as
    255, where the same numbers in floating point give 255 and 127. *)
Example int16_spread_wraps :
  normalize_buffer (IntPixels Int16 [-20000; 20000; 0; 1])
  = Ok [0; 187; 254; 255] ∧
  normalize_buffer (FloatPixels [-20000; 20000; 0; 1]%Q)
  = Ok [0; 255; 127; 127].
Proof. split; reflexivity. Qed.


(** C7: for every array, normalising under [MONOCHROME1] gives, at every
    pixel, 255 minus the value that normalising the same array under
    [MONOCHROME2] gives (and fails exactly when that one fails). *)
Theorem monochrome1_is_inverse_of_monochrome2 (px : list Q) :
  normalize px "MONOCHROME1"
  = let* raster := normalize px "MONOCHROME2" in
    Ok (map (λ v, 255 - v) raster).
Proof.
  unfold normalize.
  destruct (normalize_to_uint8 px) as [raster|e] eqn:E; simpl; [|reflexivity].
  f_equal. unfold apply_photometric; simpl.
  apply map_ext_in. intros v Hv.
  pose proof (normalize_to_uint8_range px raster E) as Hr.
  rewrite List.Forall_forall in Hr. specialize (Hr v Hv).
  unfold uint8_rsub. apply Z.mod_small. lia.
Qed.

Lemma map_const_replicate {A B} (b : B) (l : list A) :
  map (λ _, b) l = replicate (length l) b.
Proof. induction l; simpl; congruence. Qed.

Lemma map_replicate {A B} (f : A → B) (n : nat) (a : A) :
  map f (replicate n a) = replicate n (f a).
Proof. induction n; simpl; congruence. Qed.

(** The raster of a constant frame before the photometric correction. *)
Lemma constant_frame_raster (px : list Q) (c : Q) :
  px ≠ [] → Forall (λ v, v == c) px →
  ∃ lo hi, np_min px = Ok lo ∧ np_max (shifted_by lo px) = Ok hi ∧
           Qpositive hi = false ∧
           normalize_to_uint8 px = Ok (replicate (length px) 0).
Proof.
  intros Hne Hc. rewrite List.Forall_forall in Hc.
  destruct (normalize_extrema px Hne) as (lo & hi & Hlo & Hmin & Hhi & Hmax).
  assert (Hloc : lo == c) by (apply Hc, Hmin).
  assert (Hhi0 : hi == 0).
  { destruct Hmax as [Hin _]. unfold shifted_by in Hin.
    apply in_map_iff in Hin. destruct Hin as (v & <- & Hv).
    rewrite (Hc v Hv), Hloc. ring. }
  assert (Hpos : Qpositive hi = false).
  { apply Qpositive_false. rewrite Hhi0. apply Qle_refl. }
  exists lo, hi. repeat split; try assumption.
  rewrite (normalize_to_uint8_floor px lo hi Hlo Hmin Hhi Hmax).
  f_equal. rewrite <- map_const_replicate. apply map_ext_in. intros v Hv.
  unfold scaled_value. rewrite Hpos.
  assert (Hz : ((v - lo) * 255 == inject_Z 0)%Q).
  { rewrite (Hc v Hv), Hloc. unfold inject_Z. ring. }
  rewrite (Qfloor_comp _ _ Hz). apply Qfloor_Z.
Qed.

(** C8: a non-empty frame whose pixels all have the same value normalises
    without dividing (the maximum of the shifted array is not positive), to
    an all-zero raster under every photometric interpretation other than
    [MONOCHROME1], and to an all-255 raster under [MONOCHROME1]. *)
Theorem constant_frame_normalizes (px : list Q) (c : Q) (photometric : string) :
  px ≠ [] → Forall (λ v, v == c) px →
  (∃ lo hi, np_min px = Ok lo ∧ np_max (shifted_by lo px) = Ok hi ∧
            Qpositive hi = false) ∧
  (photometric ≠ "MONOCHROME1" →
   normalize px photometric = Ok (replicate (length px) 0)) ∧
  normalize px "MONOCHROME1" = Ok (replicate (length px) 255).
Proof.
  intros Hne Hc.
  destruct (constant_frame_raster px c Hne Hc) as (lo & hi & Hlo & Hhi & Hpos & Hr).
  split; [exists lo, hi; auto|]. unfold normalize. rewrite Hr; simpl. split.
  - intros Hph. apply String.eqb_neq in Hph.
    unfold apply_photometric. now rewrite Hph.
  - f_equal. unfold apply_photometric; simpl.
    apply (map_replicate (uint8_rsub 255) (length px) 0).
Qed.

Lemma constant_frame_normalizes_witness :
  normalize [5; 5; 5]%Q "MONOCHROME2" = Ok [0; 0; 0] ∧
  normalize [5; 5; 5]%Q "MONOCHROME1" = Ok [255; 255; 255].
Proof.
  assert (Hne : [5; 5; 5]%Q ≠ []) by discriminate.
  assert (Hc : Forall (λ v, v == 5) [5; 5; 5]%Q).
  { repeat constructor. }
  destruct (constant_frame_normalizes [5; 5; 5]%Q 5 "MONOCHROME2" Hne Hc)
    as (_ & H2 & H1).
  split; [apply H2; discriminate | exact H1].
Defined.

(** ** The RadiometricTransform *)

(** Case analysis on an innermost comparison of the goal. *)
Ltac case_compare :=
  match goal with
  | |- context [(?a ?= ?b)%Q] =>
      lazymatch a with
      | context [Qcompare] => fail
      | _ => destruct (Qcompare_spec a b)
      end
  end.

(** Clipping a clipped value changes nothing, whatever the bounds. *)
Lemma np_clip_idempotent (lo hi x : Q) :
  np_clip lo hi (np_clip lo hi x) = np_clip lo hi x.
Proof.
  unfold np_clip, Qmin, Qmax, GenericMinMax.gmin, GenericMinMax.gmax.
  repeat case_compare; try reflexivity; exfalso; lra.
Qed.

(** With ordered bounds, [np_clip] is the usual clamp. *)
Lemma np_clip_spec (lo hi x : Q) :
  (lo <= hi)%Q →
  (lo <= np_clip lo hi x ∧ np_clip lo hi x <= hi)%Q ∧
  ((x < lo)%Q → np_clip lo hi x = lo) ∧
  ((hi < x)%Q → np_clip lo hi x = hi) ∧
  ((lo <= x ∧ x <= hi)%Q → np_clip lo hi x = x).
Proof.
  intros Hle.
  unfold np_clip, Qmin, Qmax, GenericMinMax.gmin, GenericMinMax.gmax.
  repeat case_compare; repeat split; intros;
    try reflexivity; try lra; exfalso; lra.
Qed.

(** C9: for every array and every window centre and width, clipping to
    [centre - width/2, centre + width/2] an array that was already clipped
    to that window gives back the once-clipped array. *)
Theorem window_clip_idempotent (center width : Q) (px : list Q) :
  clip_to_window center width (clip_to_window center width px)
  = clip_to_window center width px.
Proof.
  unfold clip_to_window, window_bounds. rewrite map_map.
  apply map_ext. intros v. apply np_clip_idempotent.
Qed.

Lemma declares_first_window_value (v : DSValue) (q : Q) :
  declares v q → first_window_value v = Ok q.
Proof. intros []; reflexivity. Qed.

(** C3: when a slope, an intercept, a window centre and a window width are
    declared, every raw value is first rescaled to [raw*slope + intercept]
    and the rescaled value is then clipped to
    [centre - width/2, centre + width/2], the centre and the width being the
    first value of the attribute when it is a list; with a non-negative
    width every result lies within these bounds and a rescaled value already
    within them is unchanged.  Scenario: raw 1000 with slope 1, intercept
    -1024, centre 40 (first of a list) and width 400 is rescaled to -24, the
    bounds are -160 and 240, and -24 passes the clip unchanged. *)
Theorem rescale_then_window
    (ds : Dataset) (px : list Q) (slope intercept c w : Q) (wc ww : DSValue) :
  RescaleSlope ds = Some slope → RescaleIntercept ds = Some intercept →
  WindowCenter ds = Some wc → WindowWidth ds = Some ww →
  declares wc c → declares ww w →
  let lo := (c - w / 2)%Q in
  let hi := (c + w / 2)%Q in
  radiometric_transform ds px
  = Ok (map (λ raw, np_clip lo hi (raw * slope + intercept)%Q) px) ∧
  ((0 <= w)%Q → ∀ raw,
     let v := (raw * slope + intercept)%Q in
     (lo <= np_clip lo hi v ∧ np_clip lo hi v <= hi)%Q ∧
     ((lo <= v ∧ v <= hi)%Q → np_clip lo hi v = v)) ∧
  (radiometric_transform ct_slice [1000%Q] = Ok [(1000 * 1 + -1024)%Q] ∧
   (1000 * 1 + -1024 == -24)%Q ∧
   (fst (window_bounds 40 400) == -160)%Q ∧
   (snd (window_bounds 40 400) == 240)%Q).
Proof.
  intros Hs Hi Hwc Hww Hc Hw lo hi. split; [|split].
  - unfold radiometric_transform, apply_window, apply_rescale.
    rewrite Hs, Hi, Hwc, Hww.
    rewrite (declares_first_window_value wc c Hc),
            (declares_first_window_value ww w Hw). simpl.
    unfold clip_to_window, window_bounds. rewrite map_map. reflexivity.
  - intros Hw0 raw v.
    assert (Hle : (lo <= hi)%Q).
    { subst lo hi. assert (0 <= w / 2)%Q; [|lra].
      apply Qle_shift_div_l; lra. }
    destruct (np_clip_spec lo hi v Hle) as (Hb & _ & _ & Hin). auto.
  - repeat split; vm_compute; congruence.
Qed.

Lemma rescale_then_window_witness :
  radiometric_transform ct_slice [1000; 0; 2000; 1100]%Q
  = Ok (map (λ raw, np_clip (40 - 400 / 2) (40 + 400 / 2) (raw * 1 + -1024)%Q)
          [1000; 0; 2000; 1100]%Q).
Proof.
  apply (rescale_then_window ct_slice [1000; 0; 2000; 1100]%Q 1 (-1024) 40 400
           (DSmulti [40; 300]%Q) (DSsingle 400));
    try reflexivity; constructor.
Defined.

(** C4 (as stated) fails on a dataset that declares a slope of 2 and no
    intercept: the pixel values 1 and 2 leave the transform as they are,
    not as 2 and 4. *)
Lemma slope_alone_is_not_applied :
  RescaleSlope slope_only = Some 2%Q ∧
  RescaleIntercept slope_only = None ∧
  radiometric_transform slope_only [1; 2]%Q = Ok [1; 2]%Q ∧
  rescale_independent_defaults slope_only [1; 2]%Q = [2; 4]%Q ∧
  ¬ Forall2 Qeq (apply_rescale slope_only [1; 2]%Q)
               (rescale_independent_defaults slope_only [1; 2]%Q).
Proof.
  repeat split. vm_compute. intros H.
  inversion H as [|? ? ? ? H1 _]; subst. vm_compute in H1. discriminate.
Qed.

(** C4 (as amended): the rescale [raw*slope + intercept] is applied
    element-wise when both a slope and an intercept are declared; when
    either of them is absent the pixel values are left as they are, so a
    declared slope without an intercept (or an intercept without a slope)
    has no effect. *)
Theorem rescale_requires_both (ds : Dataset) (px : list Q) :
  (∀ slope intercept,
     RescaleSlope ds = Some slope → RescaleIntercept ds = Some intercept →
     apply_rescale ds px = map (λ raw, raw * slope + intercept)%Q px) ∧
  (RescaleSlope ds = None ∨ RescaleIntercept ds = None →
   apply_rescale ds px = px).
Proof.
  unfold apply_rescale. split.
  - intros slope intercept -> ->. reflexivity.
  - intros [-> | ->]; [reflexivity|]. now destruct (RescaleSlope ds).
Qed.

Lemma rescale_requires_both_witness :
  apply_rescale ct_slice [1000]%Q = [(1000 * 1 + -1024)%Q] ∧
  apply_rescale slope_only [1; 2]%Q = [1; 2]%Q.
Proof.
  split.
  - apply (proj1 (rescale_requires_both ct_slice [1000]%Q) 1%Q (-1024)%Q);
      reflexivity.
  - apply (proj2 (rescale_requires_both slope_only [1; 2]%Q)).
    right. reflexivity.
Defined.

(** ** Layout classification and frame selection *)

(** The layout is decided by the shape alone. *)
Lemma classify_shape_only (a b : ndarray Q) :
  shape a = shape b → classify a = classify b.
Proof.
  destruct a as [sh da], b as [sh' db]; simpl. intros <-.
  unfold classify, select_frame, check_dimensions, np_squeeze, index0; simpl.
  destruct sh as [|n [|h [|w [|x sh]]]]; simpl; try reflexivity;
    repeat case_match; simplify_eq/=; congruence.
Qed.

(** C2 (as stated) fails on a 5 x 1 buffer: the squeeze of line 96 turns
    its shape into (5,), and line 99 raises the error for 1-D data; the
    whole conversion fails with it. *)
Lemma column_image_is_rejected :
  let a := mk_ndarray [5; 1]%nat [1; 2; 3; 4; 5]%Q in
  classify a = Unsupported (InvalidDimensions1D [5; 1]%nat [5]%nat) ∧
  classify a ≠ Single2D [5; 1]%nat ∧
  dicom_to_image (bare_dataset a) None
  = Err (InvalidDimensions1D [5; 1]%nat [5]%nat).
Proof.
  repeat split. discriminate.
Qed.

(** C2 (as amended): a 2-D shape (H, W) with H >= 2 and W >= 2 is classified
    as a single 2-D image of that shape; a 2-D shape with one unit dimension
    and the other at least 2 is squeezed to 1-D and rejected; and the
    classification is a function of the shape alone. *)
Theorem classify_two_dimensional (a : ndarray Q) (H W : nat) :
  shape a = [H; W] →
  ((2 ≤ H)%nat → (2 ≤ W)%nat → classify a = Single2D [H; W]) ∧
  ((2 ≤ H)%nat → W = 1%nat →
   classify a = Unsupported (InvalidDimensions1D [H; 1%nat] [H])) ∧
  (H = 1%nat → (2 ≤ W)%nat →
   classify a = Unsupported (InvalidDimensions1D [1%nat; W] [W])) ∧
  (∀ b : ndarray Q, shape b = shape a → classify b = classify a).
Proof.
  intros Hsh. split; [|split; [|split]].
  - intros HH HW. destruct a as [sh da]; simpl in Hsh; subst sh.
    unfold classify, select_frame, check_dimensions, np_squeeze; simpl.
    rewrite !filter_cons, !decide_True by lia. reflexivity.
  - intros HH ->. destruct a as [sh da]; simpl in Hsh; subst sh.
    unfold classify, select_frame, check_dimensions, np_squeeze; simpl.
    rewrite !filter_cons, decide_True by lia. reflexivity.
  - intros -> HW. destruct a as [sh da]; simpl in Hsh; subst sh.
    unfold classify, select_frame, check_dimensions, np_squeeze; simpl.
    rewrite !filter_cons. destruct (decide (W ≠ 1%nat)); [reflexivity | lia].
  - intros b Hb. now apply classify_shape_only.
Qed.

Lemma classify_two_dimensional_witness :
  classify (mk_ndarray [2; 2]%nat [1000; 0; 2000; 1100]%Q)
  = Single2D [2; 2]%nat.
Proof.
  apply (proj1 (classify_two_dimensional
                  (mk_ndarray [2; 2]%nat [1000; 0; 2000; 1100]%Q) 2 2 eq_refl));
    lia.
Defined.

(** Element (h, w) of frame [i] is element (i, h, w) of the stack. *)
Lemma index0_get (a : ndarray Q) (N H W i h w : nat) :
  shape a = [N; H; W] → well_formed a →
  (i < N)%nat → (h < H)%nat → (w < W)%nat →
  is_Some (get2 (index0 a i) h w) ∧ get2 (index0 a i) h w = get3 a i h w.
Proof.
  intros Hsh Hwf Hi Hh Hw. unfold well_formed in Hwf.
  unfold get2, get3, index0. rewrite Hsh in *. simpl in *.
  rewrite Nat.mul_1_r in *.
  assert (Hrow : ((h + 1) * W ≤ H * W)%nat)
    by (apply Nat.mul_le_mono_r; lia).
  assert (Hblock : ((i + 1) * (H * W) ≤ N * (H * W))%nat)
    by (apply Nat.mul_le_mono_r; lia).
  rewrite lookup_take_lt by lia. rewrite lookup_drop.
  replace (i * (H * W) + (h * W + w))%nat
    with (i * (H * W) + h * W + w)%nat by lia.
  split; [|reflexivity].
  apply lookup_lt_is_Some. rewrite Hwf. lia.
Qed.

(** C5: for a stack of N frames (a 3-D buffer whose last dimension is not
    3) and a requested index i, the selection returns frame i (its pixel
    (h, w) is pixel (i, h, w) of the stack) when 0 <= i < N, and raises the
    frame-index error, carrying i and N, otherwise. *)
Theorem frame_selection_bounds (a : ndarray Q) (N H W : nat) (i : Z) :
  shape a = [N; H; W] → W ≠ 3%nat → (1 ≤ N)%nat → well_formed a →
  (0 ≤ i < Z.of_nat N →
   ∃ frame,
     select_frame a (Some i) = Ok (Some frame, N) ∧
     shape frame = [H; W] ∧
     ∀ h w, (h < H)%nat → (w < W)%nat →
       is_Some (get2 frame h w) ∧
       get2 frame h w = get3 a (Z.to_nat i) h w) ∧
  (¬ (0 ≤ i < Z.of_nat N) →
   select_frame a (Some i) = Err (FrameIndexOutOfRange i N)).
Proof.
  intros Hsh HW HN Hwf. unfold select_frame. rewrite Hsh.
  apply Nat.eqb_neq in HW. rewrite HW. split.
  - intros Hi.
    replace ((i <? 0) || (i >=? Z.of_nat N)) with false
      by (symmetry; apply orb_false_iff; lia).
    eexists; split; [reflexivity|]. split.
    + unfold index0. now rewrite Hsh.
    + intros h w Hh Hw. apply (index0_get a N H W); auto. lia.
  - intros Hi.
    replace ((i <? 0) || (i >=? Z.of_nat N)) with true; [reflexivity|].
    symmetry. apply orb_true_iff. lia.
Qed.

Lemma frame_selection_bounds_witness :
  select_frame (stack 50) (Some 50) = Err (FrameIndexOutOfRange 50 50) ∧
  ∃ frame, select_frame (stack 50) (Some 49) = Ok (Some frame, 50%nat) ∧
           shape frame = [2; 2]%nat.
Proof.
  assert (Hwf : well_formed (stack 50)) by (vm_compute; reflexivity).
  assert (H3 : 2%nat ≠ 3%nat) by lia.
  assert (HN : (1 ≤ 50)%nat) by lia.
  split.
  - apply (proj2 (frame_selection_bounds (stack 50) 50 2 2 50
                    eq_refl H3 HN Hwf)). lia.
  - destruct (proj1 (frame_selection_bounds (stack 50) 50 2 2 49
                       eq_refl H3 HN Hwf)) as (frame & Hsel & Hshape & _);
      [lia|]. exists frame. split; assumption.
Defined.

(** ** The frame loop of [convert_dicom_multiframe] *)

Lemma NoDup_range (n : nat) : NoDup (range n).
Proof.
  unfold range. apply (NoDup_fmap_2 Z.of_nat). apply NoDup_seq.
Qed.

Lemma NoDup_frames_to_convert (total : nat) (frame_number : option Z) :
  NoDup (frames_to_convert total frame_number).
Proof.
  destruct frame_number; simpl; [apply NoDup_singleton | apply NoDup_range].
Qed.

(** Two disjoint classes of frames, both inside a third one, count for at
    most as many frames as the third. *)
Lemma filter_length_disjoint_le {A} (P Q R : A → Prop)
    `{∀ x, Decision (P x)} `{∀ x, Decision (Q x)} `{∀ x, Decision (R x)}
    (l : list A) :
  (∀ x, x ∈ l → P x → ¬ Q x) → (∀ x, x ∈ l → P x → R x) →
  (∀ x, x ∈ l → Q x → R x) →
  (length (filter P l) + length (filter Q l) ≤ length (filter R l))%nat.
Proof.
  induction l as [|a l IH]; intros Hd HP HQ; [reflexivity|].
  assert (IH' : (length (filter P l) + length (filter Q l)
                 ≤ length (filter R l))%nat).
  { apply IH; intros x Hx; [apply Hd | apply HP | apply HQ]; now right. }
  assert (Ha : a ∈ a :: l) by now left.
  rewrite !filter_cons.
  destruct (decide (P a)) as [p|p], (decide (Q a)) as [q|q],
           (decide (R a)) as [r|r]; simpl; try lia.
  - destruct (Hd a Ha p q).
  - destruct (Hd a Ha p q).
  - destruct (r (HP a Ha p)).
  - destruct (r (HQ a Ha q)).
Qed.

Section BatchProperties.

Variable tile_frame : Z → Raster → TileOutcome.
Variable ds : Dataset.
Variable dir : gset Z.

Lemma count_fate_cons (f : FrameFate) (i : Z) (frames : list Z) :
  count_fate tile_frame ds dir f (i :: frames)
  = ((if decide (fate tile_frame ds dir i = f) then 1 else 0)
     + count_fate tile_frame ds dir f frames)%nat.
Proof.
  unfold count_fate. rewrite filter_cons.
  now destruct (decide (fate tile_frame ds dir i = f)).
Qed.

(** Every requested frame is skipped, converted or failed. *)
Lemma count_fate_total (frames : list Z) :
  length frames
  = (count_fate tile_frame ds dir Converted frames + count_fate tile_frame ds dir Failed frames + count_fate tile_frame ds dir Skipped frames)%nat.
Proof.
  induction frames as [|i frames IH]; [reflexivity|].
  rewrite !count_fate_cons. simpl length. rewrite IH.
  destruct (fate tile_frame ds dir i); simpl; lia.
Qed.

Lemma count_skipped_present (frames : list Z) :
  count_fate tile_frame ds dir Skipped frames = count_present dir frames.
Proof.
  unfold count_fate, count_present. f_equal.
  apply list_filter_iff. intros i. unfold fate.
  destruct (decide (i ∈ dir)); [tauto|].
  destruct (try_frame tile_frame ds i); split; try tauto; discriminate.
Qed.

(** One iteration, by the fate of its frame. *)
Lemma process_frame_by_fate (st : BatchState) (i : Z) :
  (i ∈ outputs st ↔ i ∈ dir) →
  match fate tile_frame ds dir i with
  | Skipped => i ∈ dir ∧ process_frame tile_frame ds st i = st
  | Converted =>
      (i ∉ dir) ∧
      process_frame tile_frame ds st i = mk_BatchState ({[i]} ∪ outputs st)
                    (S (converted_count st)) (failed_count st)
                    (extracted st ++ [i])
  | Failed =>
      (i ∉ dir) ∧
      ∃ o, (o = outputs st ∨ o = {[i]} ∪ outputs st) ∧
           process_frame tile_frame ds st i = mk_BatchState o (converted_count st)
                         (S (failed_count st)) (extracted st ++ [i])
  end.
Proof.
  intros Hdir. unfold fate, process_frame.
  destruct (decide (i ∈ dir)) as [Hd|Hd].
  - rewrite decide_True by tauto. auto.
  - rewrite decide_False by tauto.
    destruct (try_frame tile_frame ds i) as [|written]; [auto|].
    split; [exact Hd|]. eexists; split; [|reflexivity].
    destruct written; auto.
Qed.

(** The loop, started in a state whose directory agrees with [dir] on the
    frames still to visit. *)
Lemma frame_loop_spec (frames : list Z) :
  ∀ st : BatchState,
    NoDup frames →
    (∀ i, i ∈ frames → (i ∈ outputs st ↔ i ∈ dir)) →
    let st' := foldl (process_frame tile_frame ds) st frames in
    converted_count st' = (converted_count st + count_fate tile_frame ds dir Converted frames)%nat ∧
    failed_count st' = (failed_count st + count_fate tile_frame ds dir Failed frames)%nat ∧
    extracted st' = extracted st ++ filter (λ i, i ∉ dir) frames ∧
    outputs st ⊆ outputs st' ∧
    (∀ i, i ∈ frames → fate tile_frame ds dir i = Converted → i ∈ outputs st').
Proof.
  induction frames as [|i frames IH]; intros st Hnd Hdir; simpl.
  - unfold count_fate; simpl. rewrite app_nil_r.
    repeat split; try lia; try done.
    intros j Hj. inversion Hj.
  - apply NoDup_cons in Hnd as [Hi Hnd].
    assert (Hidir : i ∈ outputs st ↔ i ∈ dir) by (apply Hdir; now left).
    pose proof (process_frame_by_fate st i Hidir) as Hstep.
    assert (Hout : ∀ j, j ≠ i → (j ∈ outputs (process_frame tile_frame ds st i) ↔ j ∈ outputs st)).
    { intros j Hj. destruct (fate tile_frame ds dir i).
      - destruct Hstep as [_ ->]. tauto.
      - destruct Hstep as [_ ->]. simpl.
        rewrite elem_of_union, elem_of_singleton. tauto.
      - destruct Hstep as (_ & o & [-> | ->] & ->); simpl; [tauto|].
        rewrite elem_of_union, elem_of_singleton. tauto. }
    assert (Hnext : ∀ j, j ∈ frames → (j ∈ outputs (process_frame tile_frame ds st i) ↔ j ∈ dir)).
    { intros j Hj. assert (j ≠ i) by (intros ->; contradiction).
      rewrite Hout by assumption. apply Hdir. now right. }
    assert (Hmono : outputs st ⊆ outputs (process_frame tile_frame ds st i)).
    { intros j Hj. destruct (fate tile_frame ds dir i).
      - destruct Hstep as [_ ->]. exact Hj.
      - destruct Hstep as [_ ->]. simpl. apply elem_of_union. now right.
      - destruct Hstep as (_ & o & [-> | ->] & ->); simpl; [exact Hj|].
        apply elem_of_union. now right. }
    destruct (IH (process_frame tile_frame ds st i) Hnd Hnext) as (Hc & Hf & He & Ho & Hk).
    rewrite Hc, Hf, He, !count_fate_cons, filter_cons.
    assert (Hkeep : ∀ j, j ∈ i :: frames →
              fate tile_frame ds dir j = Converted →
              j ∈ outputs (foldl (process_frame tile_frame ds) (process_frame tile_frame ds st i) frames)).
    { intros j Hj Hfj. apply elem_of_cons in Hj as [->|Hj]; [|now apply Hk].
      apply Ho. rewrite Hfj in Hstep. destruct Hstep as [_ ->]. simpl.
      apply elem_of_union. left. now apply elem_of_singleton. }
    assert (Hsub : outputs st ⊆ outputs (foldl (process_frame tile_frame ds) (process_frame tile_frame ds st i) frames)).
    { intros j Hj. apply Ho, Hmono, Hj. }
    destruct (fate tile_frame ds dir i) eqn:Ef.
    + destruct Hstep as [Hd Hst]. rewrite Hst in *.
      destruct (decide (i ∉ dir)); [contradiction|].
      repeat split; simpl; try lia; assumption.
    + destruct Hstep as [Hd Hst]. rewrite Hst in *.
      destruct (decide (i ∉ dir)); [|contradiction].
      simpl. rewrite <- app_assoc.
      repeat split; simpl; try lia; try assumption; reflexivity.
    + destruct Hstep as (Hd & o & _ & Hst). rewrite Hst in *.
      destruct (decide (i ∉ dir)); [|contradiction].
      simpl. rewrite <- app_assoc.
      repeat split; simpl; try lia; try assumption; reflexivity.
Qed.

(** A multi-frame dataset always gets its series file, whose counters are
    those of the loop. *)
Lemma multiframe_run (stem : string) (output_name : option string)
    (tile_size quality : Z) (frame_number : option Z)
    (img : option Raster) (total : nat) :
  dicom_to_image ds None = Ok (img, total) → total ≠ 1%nat →
  ∃ m st,
    convert_dicom_multiframe tile_frame (Some ds) stem output_name
      tile_size quality frame_number dir = (Some m, st) ∧
    total_frames m = total ∧
    converted_frames m = converted_count st ∧
    let requested := frames_to_convert total frame_number in
    converted_count st = count_fate tile_frame ds dir Converted requested ∧
    failed_count st = count_fate tile_frame ds dir Failed requested ∧
    extracted st = filter (λ i, i ∉ dir) requested ∧
    dir ⊆ outputs st ∧
    (∀ i, i ∈ requested → fate tile_frame ds dir i = Converted →
          i ∈ outputs st).
Proof.
  intros Hfirst Hmulti. unfold convert_dicom_multiframe. rewrite Hfirst.
  apply Nat.eqb_neq in Hmulti. rewrite Hmulti.
  eexists _, _. split; [reflexivity|]. simpl.
  split; [reflexivity|]. split; [reflexivity|].
  destruct (frame_loop_spec (frames_to_convert total frame_number)
              (mk_BatchState dir 0 0 [])
              (NoDup_frames_to_convert total frame_number))
    as (Hc & Hf & He & Ho & Hk); [simpl; tauto|].
  simpl in *. repeat split; assumption.
Qed.

End BatchProperties.

(** C6 (as stated) fails on a resumed run: two frames are requested, the
    output of frame 0 is already there, nothing fails, and the series file
    reports 1 converted frame, not 2 - 0. *)
Lemma resumed_run_reports_fewer_frames :
  ∃ m st,
    convert_dicom_multiframe (tiles_failing_on [])
      (Some (bare_dataset (stack 2))) "cine" None 256 90 None {[0]}
    = (Some m, st) ∧
    length (frames_to_convert (total_frames m) None) = 2%nat ∧
    failed_count st = 0%nat ∧
    converted_frames m = 1%nat ∧
    converted_frames m ≠ (2 - 0)%nat.
Proof.
  eexists _, _. split; [reflexivity|]. vm_compute. repeat split. lia.
Qed.

(** C6 (as amended): in every batch run on a multi-frame dataset, with n
    requested frames of which f fail and s are skipped because their output
    already exists, each failure is counted and the loop goes on, the series
    file is written, and its [converted_frames] is n - f - s; in a run where
    no requested frame has an output yet this is n - f. *)
Theorem manifest_reports_converted_frames
    (tile_frame : Z → Raster → TileOutcome) (ds : Dataset) (dir : gset Z)
    (stem : string) (output_name : option string) (tile_size quality : Z)
    (frame_number : option Z) (img : option Raster) (total : nat) :
  dicom_to_image ds None = Ok (img, total) → total ≠ 1%nat →
  ∃ m st,
    convert_dicom_multiframe tile_frame (Some ds) stem output_name
      tile_size quality frame_number dir = (Some m, st) ∧
    let requested := frames_to_convert total frame_number in
    let n := length requested in
    let f := count_fate tile_frame ds dir Failed requested in
    let s := count_present dir requested in
    failed_count st = f ∧
    converted_frames m = (n - f - s)%nat ∧
    (converted_frames m + f + s = n)%nat ∧
    (s = 0%nat → converted_frames m = (n - f)%nat).
Proof.
  intros Hfirst Hmulti.
  destruct (multiframe_run tile_frame ds dir stem output_name tile_size
              quality frame_number img total Hfirst Hmulti)
    as (m & st & Hrun & _ & Hm & Hc & Hf & _).
  exists m, st. split; [exact Hrun|]. intros requested n f s.
  pose proof (count_fate_total tile_frame ds dir requested) as Htotal.
  rewrite (count_skipped_present tile_frame ds dir requested) in Htotal.
  fold requested in Hc, Hf. subst n f s. rewrite Hm, Hc.
  repeat split; try lia; exact Hf.
Qed.

Lemma manifest_reports_converted_frames_witness :
  ∃ m st,
    convert_dicom_multiframe (tiles_failing_on [3; 7; 11])
      (Some (bare_dataset (stack 20))) "cine" None 256 90 None ∅
    = (Some m, st) ∧
    failed_count st = 3%nat ∧ converted_frames m = 17%nat.
Proof.
  assert (Hfirst : dicom_to_image (bare_dataset (stack 20)) None
                   = Ok (None, 20%nat)) by (vm_compute; reflexivity).
  assert (Hmulti : 20%nat ≠ 1%nat) by lia.
  destruct (manifest_reports_converted_frames (tiles_failing_on [3; 7; 11])
              (bare_dataset (stack 20)) ∅ "cine" None 256 90 None None 20
              Hfirst Hmulti)
    as (m & st & Hrun & Hf & Hc & _).
  exists m, st. split; [exact Hrun|]. split.
  - rewrite Hf. vm_compute. reflexivity.
  - rewrite Hc. vm_compute. reflexivity.
Defined.

(** C10: in every batch run on a multi-frame dataset, a requested frame
    whose output already exists is not handed to [dicom_to_image] again and
    its output stays; [converted_frames] counts exactly the requested
    frames without a previous output that this run converts, so together
    with the skipped frames it is at most the number of requested frames
    whose output exists after the run. *)
Theorem skipped_frames_are_not_counted
    (tile_frame : Z → Raster → TileOutcome) (ds : Dataset) (dir : gset Z)
    (stem : string) (output_name : option string) (tile_size quality : Z)
    (frame_number : option Z) (img : option Raster) (total : nat) :
  dicom_to_image ds None = Ok (img, total) → total ≠ 1%nat →
  ∃ m st,
    convert_dicom_multiframe tile_frame (Some ds) stem output_name
      tile_size quality frame_number dir = (Some m, st) ∧
    let requested := frames_to_convert total frame_number in
    extracted st = filter (λ i, i ∉ dir) requested ∧
    (∀ i, i ∈ dir → i ∉ extracted st) ∧
    dir ⊆ outputs st ∧
    converted_frames m = count_fate tile_frame ds dir Converted requested ∧
    (converted_frames m + count_present dir requested
     ≤ count_present (outputs st) requested)%nat.
Proof.
  intros Hfirst Hmulti.
  destruct (multiframe_run tile_frame ds dir stem output_name tile_size
              quality frame_number img total Hfirst Hmulti)
    as (m & st & Hrun & _ & Hm & Hc & _ & He & Ho & Hk).
  exists m, st. split; [exact Hrun|]. intros requested.
  fold requested in Hc, He, Hk.
  split; [exact He|]. split; [|split; [exact Ho|split]].
  - intros i Hi Hex. rewrite He in Hex.
    apply list_elem_of_filter in Hex as [Hni _]. contradiction.
  - now rewrite Hm.
  - rewrite Hm, Hc. unfold count_fate, count_present.
    apply filter_length_disjoint_le.
    + intros i _ Hfate Hi. unfold fate in Hfate.
      rewrite decide_True in Hfate by exact Hi. discriminate.
    + intros i Hi Hfate. now apply Hk.
    + intros i _ Hi. now apply Ho.
Qed.

Lemma skipped_frames_are_not_counted_witness :
  ∃ m st,
    convert_dicom_multiframe (tiles_failing_on [])
      (Some (bare_dataset (stack 20))) "cine" None 256 90 None
      (list_to_set (range 10))
    = (Some m, st) ∧
    extracted st = [10; 11; 12; 13; 14; 15; 16; 17; 18; 19] ∧
    converted_frames m = 10%nat.
Proof.
  assert (Hfirst : dicom_to_image (bare_dataset (stack 20)) None
                   = Ok (None, 20%nat)) by (vm_compute; reflexivity).
  assert (Hmulti : 20%nat ≠ 1%nat) by lia.
  destruct (skipped_frames_are_not_counted (tiles_failing_on [])
              (bare_dataset (stack 20)) (list_to_set (range 10))
              "cine" None 256 90 None None 20 Hfirst Hmulti)
    as (m & st & Hrun & He & _ & _ & Hc & _).
  exists m, st. split; [exact Hrun|]. split.
  - rewrite He. vm_compute. reflexivity.
  - rewrite Hc. vm_compute. reflexivity.
Defined.

(** * Further properties of the pipeline *)

(** ** The Normalizer, pixel by pixel *)

Lemma lookup_map {A B} (f : A → B) (l : list A) (i : nat) :
  map f l !! i = f <$> l !! i.
Proof.
  revert i. induction l as [|a l IH]; intros [|i]; simpl; auto.
Qed.

Lemma apply_photometric_length (photometric : string) (raster : list Z) :
  length (apply_photometric photometric raster) = length raster.
Proof.
  unfold apply_photometric. destruct (String.eqb _ _); [apply length_map|done].
Qed.

Lemma normalize_to_uint8_length (px : list Q) (raster : list Z) :
  normalize_to_uint8 px = Ok raster → length raster = length px.
Proof.
  unfold normalize_to_uint8. destruct (np_min px) as [lo|]; [simpl|discriminate].
  destruct (np_max _) as [hi|]; [simpl|discriminate].
  intros [= <-]. destruct (Qpositive hi); now rewrite !length_map.
Qed.

Lemma normalize_to_uint8_ok (px : list Q) :
  px ≠ [] → ∃ raster, normalize_to_uint8 px = Ok raster.
Proof.
  intros Hne.
  destruct (normalize_extrema px Hne) as (lo & hi & Hlo & Hmin & Hhi & Hmax).
  eexists. apply (normalize_to_uint8_floor px lo hi); assumption.
Qed.

(** The raster value of the pixel at position [i]. *)
Lemma normalize_to_uint8_lookup (px : list Q) (raster : list Z) :
  normalize_to_uint8 px = Ok raster →
  ∃ lo hi, is_minimum lo px ∧ is_maximum hi (shifted_by lo px) ∧
    ∀ i v, px !! i = Some v →
           raster !! i = Some (Qfloor (scaled_value lo hi v * 255)%Q).
Proof.
  intros Hr. assert (Hne : px ≠ []).
  { intros ->. discriminate. }
  destruct (normalize_extrema px Hne) as (lo & hi & Hlo & Hmin & Hhi & Hmax).
  rewrite (normalize_to_uint8_floor px lo hi Hlo Hmin Hhi Hmax) in Hr.
  injection Hr as <-. exists lo, hi. split; [exact Hmin|]. split; [exact Hmax|].
  intros i v Hv. now rewrite lookup_map, Hv.
Qed.

Lemma scaled_value_mono (lo hi v1 v2 : Q) :
  (v1 <= v2)%Q → (scaled_value lo hi v1 <= scaled_value lo hi v2)%Q.
Proof.
  intros Hle. unfold scaled_value. destruct (Qpositive hi) eqn:E; [|lra].
  apply Qpositive_true in E. unfold Qdiv.
  apply Qmult_le_compat_r; [lra|]. apply Qinv_le_0_compat. lra.
Qed.

(** X1: The raster of a successful normalisation has one 8-bit value per
    pixel, whatever the photometric interpretation. *)
Theorem normalized_raster_is_8bit
    (px : list Q) (photometric : string) (raster : list Z) :
  normalize px photometric = Ok raster →
  length raster = length px ∧ Forall (λ v, 0 ≤ v ≤ 255) raster.
Proof.
  unfold normalize.
  destruct (normalize_to_uint8 px) as [r0|] eqn:E; [simpl|discriminate].
  intros [= <-]. split.
  - rewrite apply_photometric_length. now apply normalize_to_uint8_length.
  - pose proof (normalize_to_uint8_range px r0 E) as Hr.
    unfold apply_photometric. destruct (String.eqb _ _); [|exact Hr].
    apply List.Forall_forall. intros z Hz.
    apply in_map_iff in Hz as (v & <- & _). unfold uint8_rsub.
    pose proof (Z.mod_pos_bound (255 - v) 256). lia.
Qed.

Lemma normalized_raster_is_8bit_witness :
  Forall (λ v, 0 ≤ v ≤ 255) [255; 37; 0].
Proof.
  apply (normalized_raster_is_8bit [0; 6; 7]%Q "MONOCHROME1" [255; 37; 0]).
  reflexivity.
Defined.

(** X2: Normalisation raises exactly on an array without elements (the
    reduction of line 151 has nothing to reduce); every other array gets
    a raster. *)
Theorem normalize_fails_only_on_empty (px : list Q) (photometric : string) :
  (px = [] → normalize px photometric = Err EmptyReduction) ∧
  (px ≠ [] → ∃ raster, normalize px photometric = Ok raster).
Proof.
  split.
  - intros ->. reflexivity.
  - intros Hne. destruct (normalize_to_uint8_ok px Hne) as (r0 & Hr0).
    unfold normalize. rewrite Hr0. simpl. eauto.
Qed.

Lemma normalize_fails_only_on_empty_witness :
  normalize [] "MONOCHROME2" = Err EmptyReduction ∧
  ∃ raster, normalize [0; 6; 7]%Q "MONOCHROME2" = Ok raster.
Proof.
  split.
  - apply (proj1 (normalize_fails_only_on_empty [] "MONOCHROME2")).
    reflexivity.
  - apply (proj2 (normalize_fails_only_on_empty [0; 6; 7]%Q "MONOCHROME2")).
    discriminate.
Defined.

Lemma normalize_buffer_nonempty (b : PixelBuffer) (raster : list Z) :
  normalize_buffer b = Ok raster → pixel_values b ≠ [].
Proof.
  destruct b as [px|t px]; simpl; intros Hr Hnil.
  - subst px. discriminate.
  - destruct px; [discriminate | discriminate].
Qed.

(** The raster value of every pixel of a buffer whose spread fits. *)
Lemma normalize_buffer_lookup (b : PixelBuffer) (raster : list Z) :
  spread_fits b → normalize_buffer b = Ok raster →
  ∃ lo hi,
    is_minimum lo (pixel_values b) ∧
    is_maximum hi (shifted_by lo (pixel_values b)) ∧
    ∀ i v, pixel_values b !! i = Some v →
           raster !! i = Some (Qfloor (scaled_value lo hi v * 255)%Q).
Proof.
  intros Hfit Hr.
  pose proof (normalize_buffer_nonempty b raster Hr) as Hne.
  destruct (normalize_buffer_floor b Hne Hfit) as (lo & hi & Hmin & Hmax & Hfl).
  rewrite Hfl in Hr. injection Hr as <-.
  exists lo, hi. split; [exact Hmin|]. split; [exact Hmax|].
  intros i v Hv. now rewrite lookup_map, Hv.
Qed.

(** X3: Normalisation keeps the order of the pixel values of a float buffer,
    and of an integer buffer whose spread fits its type: a pixel that is
    not greater than another one is not brighter in the raster, and under
    [MONOCHROME1] not darker. *)
Theorem normalize_keeps_order
    (b : PixelBuffer) (photometric : string) (raster : list Z)
    (i j : nat) (vi vj : Q) (ri rj : Z) :
  spread_fits b →
  normalize_image b photometric = Ok raster →
  pixel_values b !! i = Some vi → pixel_values b !! j = Some vj →
  raster !! i = Some ri → raster !! j = Some rj →
  (vi <= vj)%Q →
  if String.eqb photometric "MONOCHROME1" then rj ≤ ri else ri ≤ rj.
Proof.
  unfold normalize_image. intros Hfit.
  destruct (normalize_buffer b) as [r0|] eqn:E; [cbn [bind]|discriminate].
  intros [= <-] Hvi Hvj Hri Hrj Hle.
  destruct (normalize_buffer_lookup b r0 Hfit E) as (lo & hi & Hmin & Hmax & Hat).
  pose proof (Hat i vi Hvi) as Hi. pose proof (Hat j vj Hvj) as Hj.
  assert (Hfl : Qfloor (scaled_value lo hi vi * 255)%Q
                ≤ Qfloor (scaled_value lo hi vj * 255)%Q).
  { apply Qfloor_resp_le. pose proof (scaled_value_mono lo hi vi vj Hle). lra. }
  pose proof (floor_raster_range _ lo hi Hmin Hmax) as Hr.
  rewrite List.Forall_forall in Hr.
  assert (Hbi := Hr vi (proj1 (list_elem_of_In _ _)
                          (list_elem_of_lookup_2 _ _ _ Hvi))).
  assert (Hbj := Hr vj (proj1 (list_elem_of_In _ _)
                          (list_elem_of_lookup_2 _ _ _ Hvj))).
  cbv beta in Hbi, Hbj.
  set (fi := Qfloor (scaled_value lo hi vi * 255)%Q) in *.
  set (fj := Qfloor (scaled_value lo hi vj * 255)%Q) in *.
  unfold apply_photometric in *. destruct (String.eqb _ _).
  - rewrite lookup_map, Hi in Hri. rewrite lookup_map, Hj in Hrj.
    injection Hri as <-. injection Hrj as <-. unfold uint8_rsub.
    rewrite !Z.mod_small by lia. lia.
  - rewrite Hi in Hri. rewrite Hj in Hrj. congruence.
Qed.

Lemma normalize_keeps_order_witness :
  normalize_image (IntPixels UInt16 [0; 6; 7]) "MONOCHROME2"
  = Ok [0; 218; 255] ∧ 218 ≤ 255.
Proof.
  assert (Hfit : spread_fits (IntPixels UInt16 [0; 6; 7])).
  { intros u v Hu Hv. simpl in Hu, Hv.
    assert (Hbu : 0 ≤ u ≤ 7) by (destruct Hu as [<-|[<-|[<-|[]]]]; lia).
    assert (Hbv : 0 ≤ v ≤ 7) by (destruct Hv as [<-|[<-|[<-|[]]]]; lia).
    change (int_max_value UInt16) with 65535. lia. }
  split; [reflexivity|].
  apply (normalize_keeps_order (IntPixels UInt16 [0; 6; 7]) "MONOCHROME2"
           [0; 218; 255] 1 2 6 7 218 255 Hfit);
    try reflexivity. discriminate.
Defined.

(** In an array with two different values, the least pixels get 0 and the
    greatest get 255. *)
Lemma raster_at_extremes (px : list Q) (raster : list Z) :
  normalize_to_uint8 px = Ok raster →
  (∃ a b, In a px ∧ In b px ∧ (a < b)%Q) →
  ∀ i v, px !! i = Some v →
    (Forall (λ u, v <= u)%Q px → raster !! i = Some 0) ∧
    (Forall (λ u, u <= v)%Q px → raster !! i = Some 255).
Proof.
  intros Hr (a & b & Ha & Hb & Hab) i v Hv.
  destruct (normalize_to_uint8_lookup px raster Hr)
    as (lo & hi & [Hlo_in Hlo] & [Hhi_in Hhi] & Hat).
  rewrite (Hat i v Hv). rewrite List.Forall_forall in Hlo, Hhi.
  assert (Hvin : In v px).
  { apply list_elem_of_In. eapply list_elem_of_lookup_2. exact Hv. }
  assert (Hshift : ∀ u, In u px → (u - lo <= hi)%Q).
  { intros u Hu. apply (Hhi (u - lo)%Q). unfold shifted_by.
    apply (in_map (λ v, v - lo)%Q). exact Hu. }
  assert (Hpos : (0 < hi)%Q).
  { pose proof (Hshift b Hb). pose proof (Hlo a Ha). cbv beta in *. lra. }
  unfold scaled_value. rewrite (proj2 (Qpositive_true hi) Hpos).
  split; intros Hall; rewrite List.Forall_forall in Hall; f_equal.
  - assert (H0 : (v - lo == 0)%Q).
    { pose proof (Hall lo Hlo_in). pose proof (Hlo v Hvin). cbv beta in *. lra. }
    assert (Hz : ((v - lo) / hi * 255 == inject_Z 0)%Q).
    { rewrite H0. unfold Qdiv, inject_Z. ring. }
    rewrite (Qfloor_comp _ _ Hz). apply Qfloor_Z.
  - unfold shifted_by in Hhi_in. apply in_map_iff in Hhi_in as (u & Hu & Hu_in).
    assert (H1 : (v - lo == hi)%Q).
    { assert (Hq : (u - lo == hi)%Q) by (rewrite Hu; apply Qeq_refl).
      pose proof (Hall u Hu_in). pose proof (Hshift v Hvin).
      cbv beta in *. lra. }
    assert (Hz : ((v - lo) / hi * 255 == inject_Z 255)%Q).
    { rewrite H1. unfold inject_Z. field. lra. }
    rewrite (Qfloor_comp _ _ Hz). apply Qfloor_Z.
Qed.

Lemma floor_raster_at_extremes (vals : list Q) (lo hi a c : Q)
    (i : nat) (v : Q) :
  is_minimum lo vals → is_maximum hi (shifted_by lo vals) →
  In a vals → In c vals → (a < c)%Q → vals !! i = Some v →
  (Forall (λ u, v <= u)%Q vals → Qfloor (scaled_value lo hi v * 255)%Q = 0) ∧
  (Forall (λ u, u <= v)%Q vals → Qfloor (scaled_value lo hi v * 255)%Q = 255).
Proof.
  intros [Hlo_in Hlo] [Hhi_in Hhi] Ha Hc Hac Hv.
  rewrite List.Forall_forall in Hlo, Hhi.
  assert (Hvin : In v vals).
  { apply list_elem_of_In. eapply list_elem_of_lookup_2. exact Hv. }
  assert (Hshift : ∀ u, In u vals → (u - lo <= hi)%Q).
  { intros u Hu. apply (Hhi (u - lo)%Q). unfold shifted_by.
    apply (in_map (λ v, v - lo)%Q). exact Hu. }
  assert (Hpos : (0 < hi)%Q).
  { pose proof (Hshift c Hc). pose proof (Hlo a Ha). cbv beta in *. lra. }
  unfold scaled_value. rewrite (proj2 (Qpositive_true hi) Hpos).
  split; intros Hall; rewrite List.Forall_forall in Hall.
  - assert (H0 : (v - lo == 0)%Q).
    { pose proof (Hall lo Hlo_in). pose proof (Hlo v Hvin).
      cbv beta in *. lra. }
    assert (Hz : ((v - lo) / hi * 255 == inject_Z 0)%Q).
    { rewrite H0. unfold Qdiv, inject_Z. ring. }
    rewrite (Qfloor_comp _ _ Hz). apply Qfloor_Z.
  - unfold shifted_by in Hhi_in. apply in_map_iff in Hhi_in as (u & Hu & Hu_in).
    assert (H1 : (v - lo == hi)%Q).
    { assert (Hq : (u - lo == hi)%Q) by (rewrite Hu; apply Qeq_refl).
      pose proof (Hall u Hu_in). pose proof (Hshift v Hvin).
      cbv beta in *. lra. }
    assert (Hz : ((v - lo) / hi * 255 == inject_Z 255)%Q).
    { rewrite H1. unfold inject_Z. field. lra. }
    rewrite (Qfloor_comp _ _ Hz). apply Qfloor_Z.
Qed.

(** X4: The stretch uses the whole 8-bit range: in a float buffer, or an
    integer buffer whose spread fits its type, that holds two different
    values, every pixel with the least value is stored as 0 and every
    pixel with the greatest value as 255 (before any inversion). *)
Theorem normalize_uses_full_range
    (b : PixelBuffer) (raster : list Z) (a c : Q) (i : nat) (v : Q) :
  spread_fits b →
  normalize_buffer b = Ok raster →
  In a (pixel_values b) → In c (pixel_values b) → (a < c)%Q →
  pixel_values b !! i = Some v →
  (Forall (λ u, v <= u)%Q (pixel_values b) → raster !! i = Some 0) ∧
  (Forall (λ u, u <= v)%Q (pixel_values b) → raster !! i = Some 255).
Proof.
  intros Hfit Hr Ha Hc Hac Hv.
  destruct (normalize_buffer_lookup b raster Hfit Hr)
    as (lo & hi & Hmin & Hmax & Hat).
  rewrite (Hat i v Hv).
  destruct (floor_raster_at_extremes _ lo hi a c i v Hmin Hmax Ha Hc Hac Hv)
    as [H0 H255].
  split; intros Hall; f_equal; auto.
Qed.

Lemma normalize_uses_full_range_witness :
  normalize_buffer (IntPixels Int16 [-20; 40; 0]) = Ok [0; 255; 85] ∧
  [0; 255; 85] !! 1%nat = Some 255.
Proof.
  assert (Hfit : spread_fits (IntPixels Int16 [-20; 40; 0])).
  { intros u v Hu Hv. simpl in Hu, Hv.
    assert (Hbu : -20 ≤ u ≤ 40) by (destruct Hu as [<-|[<-|[<-|[]]]]; lia).
    assert (Hbv : -20 ≤ v ≤ 40) by (destruct Hv as [<-|[<-|[<-|[]]]]; lia).
    change (int_max_value Int16) with 32767. lia. }
  assert (Hr : normalize_buffer (IntPixels Int16 [-20; 40; 0])
               = Ok [0; 255; 85]) by reflexivity.
  split; [exact Hr|].
  apply (proj2 (normalize_uses_full_range (IntPixels Int16 [-20; 40; 0])
                  [0; 255; 85] (inject_Z (-20)) (inject_Z 40) 1 (inject_Z 40)
                  Hfit Hr (or_introl eq_refl) (or_intror (or_introl eq_refl))
                  eq_refl eq_refl)).
  repeat constructor; discriminate.
Defined.

(** ** Windowing followed by normalisation *)

Lemma np_clip_below (lo hi x : Q) :
  (lo <= hi)%Q → (x <= lo)%Q → (np_clip lo hi x == lo)%Q.
Proof.
  intros Hle Hx.
  unfold np_clip, Qmin, Qmax, GenericMinMax.gmin, GenericMinMax.gmax.
  repeat case_compare; lra.
Qed.

Lemma np_clip_above (lo hi x : Q) :
  (lo <= hi)%Q → (hi <= x)%Q → (np_clip lo hi x == hi)%Q.
Proof.
  intros Hle Hx.
  unfold np_clip, Qmin, Qmax, GenericMinMax.gmin, GenericMinMax.gmax.
  repeat case_compare; lra.
Qed.

Lemma np_clip_collapse (lo hi x : Q) :
  (hi <= lo)%Q → (np_clip lo hi x == hi)%Q.
Proof.
  intros Hle.
  unfold np_clip, Qmin, Qmax, GenericMinMax.gmin, GenericMinMax.gmax.
  repeat case_compare; lra.
Qed.

Lemma np_clip_bounds (lo hi x : Q) :
  (lo <= hi)%Q → (lo <= np_clip lo hi x ∧ np_clip lo hi x <= hi)%Q.
Proof. intros Hle. apply (np_clip_spec lo hi x Hle). Qed.

(** X5: When a frame has a pixel at or below the lower window bound and one at
    or above the upper bound, the window is what gets stretched: every
    pixel at or below the lower bound is stored as 0 and every pixel at or
    above the upper bound as 255. *)
Theorem window_spans_full_range
    (center width : Q) (px : list Q) (raster : list Z) (a b : Q)
    (i : nat) (v : Q) :
  (0 < width)%Q →
  In a px → (a <= center - width / 2)%Q →
  In b px → (center + width / 2 <= b)%Q →
  normalize_to_uint8 (clip_to_window center width px) = Ok raster →
  px !! i = Some v →
  ((v <= center - width / 2)%Q → raster !! i = Some 0) ∧
  ((center + width / 2 <= v)%Q → raster !! i = Some 255).
Proof.
  intros Hw Ha Hale Hb Hble Hr Hv.
  unfold clip_to_window, window_bounds in Hr.
  set (lo := (center - width / 2)%Q) in *.
  set (hi := (center + width / 2)%Q) in *.
  assert (Hlt : (lo < hi)%Q).
  { subst lo hi. assert (0 < width / 2)%Q; [|lra].
    apply Qlt_shift_div_l; lra. }
  assert (Hle : (lo <= hi)%Q) by lra.
  assert (Hspan : ∃ a' b', In a' (map (np_clip lo hi) px) ∧
                           In b' (map (np_clip lo hi) px) ∧ (a' < b')%Q).
  { exists (np_clip lo hi a), (np_clip lo hi b).
    split; [now apply in_map|]. split; [now apply in_map|].
    rewrite (np_clip_below lo hi a Hle Hale), (np_clip_above lo hi b Hle Hble).
    exact Hlt. }
  assert (Hclip : map (np_clip lo hi) px !! i = Some (np_clip lo hi v)).
  { now rewrite lookup_map, Hv. }
  destruct (raster_at_extremes _ raster Hr Hspan i _ Hclip) as [H0 H255].
  split; intros Hvle.
  - apply H0. apply List.Forall_forall. intros u Hu.
    apply in_map_iff in Hu as (x & <- & _).
    rewrite (np_clip_below lo hi v Hle Hvle).
    apply (np_clip_bounds lo hi x Hle).
  - apply H255. apply List.Forall_forall. intros u Hu.
    apply in_map_iff in Hu as (x & <- & _).
    rewrite (np_clip_above lo hi v Hle Hvle).
    apply (np_clip_bounds lo hi x Hle).
Qed.

Lemma window_spans_full_range_witness :
  [86; 0; 255; 150] !! 2%nat = Some 255.
Proof.
  assert (Hw : (0 < 400)%Q) by reflexivity.
  assert (Ha : In (-1024)%Q [-24; -1024; 976; 76]%Q) by (right; now left).
  assert (Hb : In 976%Q [-24; -1024; 976; 76]%Q) by (right; right; now left).
  assert (Hale : (-1024 <= 40 - 400 / 2)%Q) by (vm_compute; discriminate).
  assert (Hble : (40 + 400 / 2 <= 976)%Q) by (vm_compute; discriminate).
  assert (Hr : normalize_to_uint8
                 (clip_to_window 40 400 [-24; -1024; 976; 76]%Q)
               = Ok [86; 0; 255; 150]) by (vm_compute; reflexivity).
  apply (proj2 (window_spans_full_range 40 400 [-24; -1024; 976; 76]%Q
                  [86; 0; 255; 150] (-1024) 976 2 976
                  Hw Ha Hale Hb Hble Hr eq_refl)).
  exact Hble.
Defined.

(** X6: A window whose width is zero or negative leaves nothing to stretch:
    every pixel is clipped to the upper bound and the raster is uniform,
    all 0 (all 255 under [MONOCHROME1]). *)
Theorem nonpositive_width_gives_uniform_raster
    (center width : Q) (px : list Q) (photometric : string) :
  (width <= 0)%Q → px ≠ [] →
  normalize (clip_to_window center width px) photometric
  = Ok (replicate (length px)
          (if String.eqb photometric "MONOCHROME1" then 255 else 0)).
Proof.
  intros Hw Hne. unfold clip_to_window, window_bounds.
  set (lo := (center - width / 2)%Q). set (hi := (center + width / 2)%Q).
  assert (Hle : (hi <= lo)%Q).
  { subst lo hi. assert (width / 2 <= 0)%Q; [|lra].
    apply Qle_shift_div_r; lra. }
  assert (Hne' : map (np_clip lo hi) px ≠ []).
  { destruct px; [congruence | discriminate]. }
  assert (Hc : Forall (λ v, v == hi) (map (np_clip lo hi) px)).
  { apply List.Forall_forall. intros u Hu.
    apply in_map_iff in Hu as (x & <- & _). now apply np_clip_collapse. }
  destruct (constant_frame_raster _ hi Hne' Hc) as (_ & _ & _ & _ & _ & Hr).
  unfold normalize. rewrite Hr, length_map. simpl. f_equal.
  unfold apply_photometric. destruct (String.eqb _ _); [|reflexivity].
  apply (map_replicate (uint8_rsub 255) (length px) 0).
Qed.

Lemma nonpositive_width_gives_uniform_raster_witness :
  normalize (clip_to_window 40 (-400) [-24; -1024; 976]%Q) "MONOCHROME2"
  = Ok [0; 0; 0].
Proof.
  apply (nonpositive_width_gives_uniform_raster 40 (-400)
           [-24; -1024; 976]%Q "MONOCHROME2"); discriminate.
Defined.

(** ** The RadiometricTransform: a window needs both attributes *)

(** X7: A window attribute on its own is ignored: for a dataset that has a
    window centre but no window width, or a width but no centre, the
    rescale and window stage and the whole of [dicom_to_image] behave as
    they do on the same dataset with neither attribute, whether they
    return or raise. *)
Theorem lone_window_attribute_is_ignored
    (ds : Dataset) (frame_index : option Z) :
  WindowCenter ds = None ∨ WindowWidth ds = None →
  (∀ px, radiometric_transform ds px
         = radiometric_transform (with_window None None ds) px) ∧
  dicom_to_image ds frame_index
  = dicom_to_image (with_window None None ds) frame_index.
Proof.
  intros Hlone.
  assert (Hstage : ∀ px, radiometric_transform ds px
                         = radiometric_transform (with_window None None ds) px).
  { intros px. unfold radiometric_transform, apply_window, apply_rescale.
    simpl. destruct Hlone as [-> | ->]; [reflexivity|].
    now destruct (WindowCenter ds). }
  split; [exact Hstage|].
  unfold dicom_to_image.
  change (pixel_array (with_window None None ds)) with (pixel_array ds).
  change (photometric_of (with_window None None ds)) with (photometric_of ds).
  destruct (select_frame (pixel_array ds) frame_index) as [[[a|] n]|e];
    cbn [bind]; try reflexivity.
  destruct (check_dimensions (shape (pixel_array ds)) a) as [a'|e];
    cbn [bind]; [|reflexivity].
  now rewrite (Hstage (data a')).
Qed.

Lemma lone_window_attribute_is_ignored_witness :
  dicom_to_image (with_window (Some (DSsingle 40%Q)) None ct_slice) None
  = dicom_to_image (with_window None None ct_slice) None.
Proof.
  apply (proj2 (lone_window_attribute_is_ignored
                  (with_window (Some (DSsingle 40%Q)) None ct_slice) None
                  (or_intror eq_refl))).
Defined.

(** ** [dicom_to_image] as a whole *)

(** What frame selection can return. *)
Lemma select_frame_inv (a : ndarray Q) (frame_index : option Z)
    (sel : option (ndarray Q)) (total : nat) :
  select_frame a frame_index = Ok (sel, total) →
  (sel = Some a ∧ total = 1%nat ∧
   (length (shape a) ≠ 3%nat ∨ ∃ H W, shape a = [H; W; 3%nat])) ∨
  (∃ H W, shape a = [total; H; W] ∧ W ≠ 3%nat ∧
     ((∃ i, frame_index = Some i ∧ 0 ≤ i < Z.of_nat total ∧
            sel = Some (index0 a (Z.to_nat i))) ∨
      (frame_index = None ∧ total = 1%nat ∧ sel = Some (index0 a 0)) ∨
      (frame_index = None ∧ total ≠ 1%nat ∧ sel = None))).
Proof.
  unfold select_frame.
  destruct (shape a) as [|n [|h [|w [|x sh]]]] eqn:Hsh;
    try (intros [= <- <-]; left; simpl; auto with lia).
  destruct (Nat.eqb_spec w 3) as [->|Hw3].
  - intros [= <- <-]. left. simpl. eauto 6.
  - intros Hsel. right. exists h, w. destruct frame_index as [i|].
    + destruct ((i <? 0) || (i >=? Z.of_nat n)) eqn:E; [discriminate|].
      injection Hsel as <- <-. apply orb_false_iff in E.
      split; [reflexivity|]. split; [exact Hw3|]. left. exists i.
      split; [reflexivity|]. split; [lia|reflexivity].
    + destruct (Nat.eqb_spec n 1) as [->|Hn1]; injection Hsel as <- <-;
        (split; [reflexivity|]; split; [exact Hw3|]); right; auto.
Qed.

(** The stages a successful call went through. *)
Lemma dicom_to_image_inv (ds : Dataset) (frame_index : option Z)
    (img : option Raster) (total : nat) :
  dicom_to_image ds frame_index = Ok (img, total) →
  ∃ sel, select_frame (pixel_array ds) frame_index = Ok (sel, total) ∧
    match sel with
    | None => img = None
    | Some a =>
        ∃ a' px raster,
          check_dimensions (shape (pixel_array ds)) a = Ok a' ∧
          radiometric_transform ds (data a') = Ok px ∧
          normalize px (photometric_of ds) = Ok raster ∧
          img = Some (mk_Raster (image_mode (shape a'))
                        (mk_ndarray (shape a') raster))
    end.
Proof.
  unfold dicom_to_image.
  destruct (select_frame (pixel_array ds) frame_index) as [[[a|] n]|];
    simpl; [| |discriminate].
  - destruct (check_dimensions _ a) as [a'|] eqn:Hc; simpl; [|discriminate].
    destruct (radiometric_transform ds (data a')) as [px|] eqn:Ht; simpl;
      [|discriminate].
    destruct (normalize px (photometric_of ds)) as [raster|] eqn:Hn; simpl;
      [|discriminate].
    intros [= <- <-]. eexists; split; [reflexivity|].
    exists a', px, raster. auto.
  - intros [= <- <-]. eexists; split; [reflexivity|]. reflexivity.
Qed.

(** What the dimension check lets through. *)
Lemma check_dimensions_inv (original_shape : list nat) (a a' : ndarray Q) :
  check_dimensions original_shape a = Ok a' →
  a' = np_squeeze a ∧
  (shape a' = [] ∨ (∃ H W, shape a' = [H; W]) ∨
   (∃ N H W, shape a' = [N; H; W] ∧ ((N ≤ 1)%nat ∨ W = 3%nat))).
Proof.
  unfold check_dimensions.
  destruct (shape (np_squeeze a)) as [|n [|h [|w [|x sh]]]] eqn:Hsh;
    try discriminate.
  - intros [= <-]. rewrite Hsh. auto.
  - intros [= <-]. rewrite Hsh. split; [reflexivity|]. right; left. eauto.
  - destruct (Nat.ltb_spec 1 n) as [Hn|Hn], (Nat.eqb_spec w 3) as [Hw|Hw];
      simpl; try discriminate; intros [= <-]; rewrite Hsh;
      (split; [reflexivity|]); right; right; exists n, h, w; auto.
Qed.

(** An image returned without a frame request comes with a frame count
    of 1. *)
Lemma image_without_request_has_one_frame
    (ds : Dataset) (img : Raster) (total : nat) :
  dicom_to_image ds None = Ok (Some img, total) → total = 1%nat.
Proof.
  intros H. apply dicom_to_image_inv in H as (sel & Hsel & Himg).
  destruct (select_frame_inv _ _ _ _ Hsel)
    as [(_ & -> & _) | (H & W & Hsh & HW & Hcase)]; [reflexivity|].
  destruct Hcase as [(i & [=] & _) | [(_ & -> & _) | (_ & _ & ->)]];
    [reflexivity | discriminate].
Qed.

(** X8: With no frame requested, a stack of several frames is not converted:
    the call returns no image and the number of frames, whatever the header
    holds; this happens for no other shape and never when a frame is
    requested; and an image returned without a request always comes with a
    frame count of 1. *)
Theorem multiframe_needs_frame_choice (ds : Dataset) :
  (∀ N, dicom_to_image ds None = Ok (None, N) ↔
        N ≠ 1%nat ∧ ∃ H W, shape (pixel_array ds) = [N; H; W] ∧ W ≠ 3%nat) ∧
  (∀ i total, dicom_to_image ds (Some i) ≠ Ok (None, total)) ∧
  (∀ img total, dicom_to_image ds None = Ok (Some img, total) → total = 1%nat).
Proof.
  split; [|split].
  - intros N. split.
    + intros H. apply dicom_to_image_inv in H as (sel & Hsel & Himg).
      destruct (select_frame_inv _ _ _ _ Hsel)
        as [(-> & _ & _) | (H & W & Hsh & HW & Hcase)].
      * destruct Himg as (? & ? & ? & _ & _ & _ & [=]).
      * destruct Hcase as [(i & [=] & _) | [(_ & _ & ->) | (_ & HN & _)]].
        -- destruct Himg as (? & ? & ? & _ & _ & _ & [=]).
        -- eauto.
    + intros (HN & H & W & Hsh & HW). unfold dicom_to_image, select_frame.
      rewrite Hsh. apply Nat.eqb_neq in HW, HN. now rewrite HW, HN.
  - intros i total H. apply dicom_to_image_inv in H as (sel & Hsel & Himg).
    destruct (select_frame_inv _ _ _ _ Hsel)
      as [(-> & _ & _) | (H & W & Hsh & HW & Hcase)].
    + destruct Himg as (? & ? & ? & _ & _ & _ & [=]).
    + destruct Hcase as [(j & _ & _ & ->) | [([=] & _) | ([=] & _)]].
      destruct Himg as (? & ? & ? & _ & _ & _ & [=]).
  - intros img total H. apply dicom_to_image_inv in H as (sel & Hsel & Himg).
    destruct (select_frame_inv _ _ _ _ Hsel)
      as [(_ & -> & _) | (H & W & Hsh & HW & Hcase)]; [reflexivity|].
    destruct Hcase as [(i & [=] & _) | [(_ & -> & _) | (_ & _ & ->)]];
      [reflexivity | discriminate].
Qed.

Lemma multiframe_needs_frame_choice_witness :
  dicom_to_image (bare_dataset (stack 20)) None = Ok (None, 20%nat).
Proof.
  apply (proj1 (multiframe_needs_frame_choice (bare_dataset (stack 20)))).
  split; [lia|]. exists 2%nat, 2%nat. split; [reflexivity | lia].
Defined.

(** X9: A requested frame index is ignored for every buffer that is not a
    stack: one without exactly three dimensions, or one whose last
    dimension is 3 (a colour image). *)
Theorem frame_index_ignored_without_stack (ds : Dataset) (i : Z) :
  (length (shape (pixel_array ds)) ≠ 3%nat ∨
   ∃ H W, shape (pixel_array ds) = [H; W; 3%nat]) →
  dicom_to_image ds (Some i) = dicom_to_image ds None.
Proof.
  intros Hshape. unfold dicom_to_image, select_frame.
  destruct Hshape as [Hlen | (H & W & ->)]; [|reflexivity].
  destruct (shape (pixel_array ds)) as [|n [|h [|w [|x sh]]]];
    simpl in *; congruence.
Qed.

Lemma frame_index_ignored_without_stack_witness :
  dicom_to_image ct_slice (Some 7) = dicom_to_image ct_slice None.
Proof.
  apply (frame_index_ignored_without_stack ct_slice 7).
  left. vm_compute. discriminate.
Defined.

(** X10: A stack that holds a single frame needs no request: frame 0 is taken,
    as if it had been asked for, and any other index is out of range. *)
Theorem single_frame_stack_selects_frame_0 (ds : Dataset) (H W : nat) :
  shape (pixel_array ds) = [1%nat; H; W] → W ≠ 3%nat →
  dicom_to_image ds None = dicom_to_image ds (Some 0) ∧
  ∀ i, i ≠ 0 → dicom_to_image ds (Some i) = Err (FrameIndexOutOfRange i 1).
Proof.
  intros Hsh HW. unfold dicom_to_image, select_frame. rewrite Hsh.
  apply Nat.eqb_neq in HW. rewrite HW. split; [reflexivity|].
  intros i Hi.
  replace ((i <? 0) || (i >=? Z.of_nat 1)) with true; [reflexivity|].
  symmetry. apply orb_true_iff. rewrite Z.ltb_lt, Z.geb_le. lia.
Qed.

Lemma single_frame_stack_selects_frame_0_witness :
  dicom_to_image (bare_dataset (stack 1)) None
  = dicom_to_image (bare_dataset (stack 1)) (Some 0).
Proof.
  apply (single_frame_stack_selects_frame_0 (bare_dataset (stack 1)) 2 2);
    [reflexivity | lia].
Defined.

(** A raster exists only for a non-empty array. *)
Lemma raster_length_and_range
    (px : list Q) (photometric : string) (raster : list Z) :
  normalize px photometric = Ok raster →
  length raster = length px ∧ Forall (λ v, 0 ≤ v ≤ 255) raster ∧ px ≠ [].
Proof.
  intros Hn. split; [|split].
  - unfold normalize in Hn.
    destruct (normalize_to_uint8 px) as [r0|] eqn:E; [simpl in Hn|discriminate].
    injection Hn as <-. rewrite apply_photometric_length.
    now apply normalize_to_uint8_length.
  - unfold normalize in Hn.
    destruct (normalize_to_uint8 px) as [r0|] eqn:E; [simpl in Hn|discriminate].
    injection Hn as <-.
    pose proof (normalize_to_uint8_range px r0 E) as Hr.
    unfold apply_photometric. destruct (String.eqb _ _); [|exact Hr].
    apply List.Forall_forall. intros z Hz.
    apply in_map_iff in Hz as (v & <- & _). unfold uint8_rsub.
    pose proof (Z.mod_pos_bound (255 - v) 256). lia.
  - intros ->. discriminate.
Qed.

Lemma radiometric_transform_length (ds : Dataset) (px out : list Q) :
  radiometric_transform ds px = Ok out → length out = length px.
Proof.
  unfold radiometric_transform, apply_window, apply_rescale, clip_to_window.
  intros Hout.
  destruct (WindowCenter ds) as [[c|[|c cs]]|], (WindowWidth ds) as [[w|[|w ws]]|];
    simpl in Hout; try discriminate; injection Hout as <-;
    destruct (RescaleSlope ds), (RescaleIntercept ds);
    now rewrite ?length_map.
Qed.

(** ** The shape of what is handed on *)

Lemma size_of_squeeze (sh : list nat) :
  size_of (filter (λ d, d ≠ 1%nat) sh) = size_of sh.
Proof.
  induction sh as [|d sh IH]; [reflexivity|].
  rewrite filter_cons. destruct (decide (d ≠ 1%nat)) as [Hd|Hd]; simpl.
  - now rewrite IH.
  - rewrite IH. destruct (decide (d = 1%nat)) as [->|]; [simpl; lia|contradiction].
Qed.

Lemma size_of_nonzero (sh : list nat) :
  size_of sh ≠ 0%nat → Forall (λ d, d ≠ 0%nat) sh.
Proof.
  induction sh as [|d sh IH]; simpl; intros Hs; constructor.
  - intros ->. now apply Hs.
  - apply IH. intros H0. apply Hs. rewrite H0. lia.
Qed.

Lemma squeeze_has_no_unit (sh : list nat) :
  Forall (λ d, d ≠ 1%nat) (filter (λ d, d ≠ 1%nat) sh).
Proof.
  apply Forall_forall. intros d Hd. now apply list_elem_of_filter in Hd as [? _].
Qed.

Lemma index0_well_formed {A} (a : ndarray A) (N H W i : nat) :
  shape a = [N; H; W] → well_formed a → (i < N)%nat →
  well_formed (index0 a i).
Proof.
  unfold well_formed, index0. intros Hsh Hwf Hi. rewrite Hsh in *. simpl in *.
  rewrite length_take, length_drop, Hwf.
  assert (Hblock : ((i + 1) * (H * (W * 1)) ≤ N * (H * (W * 1)))%nat)
    by (apply Nat.mul_le_mono_r; lia).
  lia.
Qed.

Lemma select_frame_well_formed (a f : ndarray Q) (frame_index : option Z)
    (total : nat) :
  well_formed a → select_frame a frame_index = Ok (Some f, total) →
  well_formed f.
Proof.
  intros Hwf Hsel.
  destruct (select_frame_inv _ _ _ _ Hsel)
    as [([= <-] & _ & _) | (H & W & Hsh & HW & Hcase)]; [exact Hwf|].
  destruct Hcase as [(i & _ & Hi & [= ->]) | [(_ & -> & [= ->]) | (_ & _ & [=])]].
  - apply (index0_well_formed a total H W); [assumption..|lia].
  - apply (index0_well_formed a 1 H W); [assumption..|lia].
Qed.

(** X11: What a successful call hands on, for a buffer that has as many
    elements as its shape says: a raster of 8-bit values with as many
    elements as its own shape says, without any axis of length 0 or 1,
    which is either a 2-D grey image, or a colour image with three
    channels, or a single value. *)
Theorem raster_contract
    (ds : Dataset) (frame_index : option Z) (r : Raster) (total : nat) :
  well_formed (pixel_array ds) →
  dicom_to_image ds frame_index = Ok (Some r, total) →
  well_formed (pixels r) ∧
  Forall (λ v, 0 ≤ v ≤ 255) (data (pixels r)) ∧
  Forall (λ d, (2 ≤ d)%nat) (shape (pixels r)) ∧
  match mode r with
  | L => ∃ H W, shape (pixels r) = [H; W]
  | RGB => shape (pixels r) = [] ∨ ∃ H W, shape (pixels r) = [H; W; 3%nat]
  end.
Proof.
  intros Hwf Hrun.
  apply dicom_to_image_inv in Hrun as (sel & Hsel & Himg).
  destruct sel as [a|]; [|discriminate].
  destruct Himg as (a' & px & raster & Hcheck & Htrans & Hnorm & [= ->]).
  simpl.
  pose proof (select_frame_well_formed _ _ _ _ Hwf Hsel) as Hwfa.
  apply check_dimensions_inv in Hcheck as [-> Hshape].
  destruct (raster_length_and_range px _ raster Hnorm) as (Hlen & Hrange & Hne).
  pose proof (radiometric_transform_length ds _ px Htrans) as Hlen'.
  assert (Hsize : length raster = size_of (shape (np_squeeze a))).
  { simpl. rewrite size_of_squeeze, Hlen, Hlen'. exact Hwfa. }
  assert (Hdims : Forall (λ d, (2 ≤ d)%nat) (shape (np_squeeze a))).
  { assert (H0 : Forall (λ d, d ≠ 0%nat) (shape (np_squeeze a))).
    { apply size_of_nonzero. rewrite <- Hsize, Hlen.
      destruct px; [contradiction | discriminate]. }
    pose proof (squeeze_has_no_unit (shape a)) as H1.
    simpl in *. rewrite Forall_forall in H0, H1. apply Forall_forall.
    intros d Hd. specialize (H0 d Hd). specialize (H1 d Hd). lia. }
  split; [exact Hsize|]. split; [exact Hrange|]. split; [exact Hdims|].
  unfold image_mode.
  destruct Hshape as [Hs | [(H & W & Hs) | (N & H & W & Hs & HNW)]];
    rewrite Hs in *; simpl.
  - now left.
  - eauto.
  - right. exists N, H. destruct HNW as [HN | ->]; [|reflexivity].
    apply Forall_cons in Hdims as [HN2 _]. lia.
Qed.

Lemma raster_contract_witness :
  ∃ r, dicom_to_image ct_slice None = Ok (Some r, 1%nat) ∧
       well_formed (pixels r) ∧ Forall (λ v, 0 ≤ v ≤ 255) (data (pixels r)).
Proof.
  assert (Hwf : well_formed (pixel_array ct_slice)) by reflexivity.
  eexists. split; [reflexivity|].
  destruct (raster_contract ct_slice None _ 1 Hwf eq_refl) as (H1 & H2 & _).
  split; assumption.
Defined.

(** ** Colour images and unsupported layouts *)

(** X12: A buffer of shape (H, W, 3) with H >= 2 and W >= 2 is a colour image of
    that shape.  With a single row or a single column the squeeze leaves
    two dimensions, and the buffer is treated as a grey image whose last
    axis are the three channels. *)
Theorem colour_image_layout (a : ndarray Q) (H W : nat) :
  shape a = [H; W; 3%nat] →
  ((2 ≤ H)%nat → (2 ≤ W)%nat → classify a = ColorRGB [H; W; 3%nat]) ∧
  (H = 1%nat → (2 ≤ W)%nat → classify a = Single2D [W; 3%nat]) ∧
  ((2 ≤ H)%nat → W = 1%nat → classify a = Single2D [H; 3%nat]).
Proof.
  intros Hsh. destruct a as [sh da]; simpl in Hsh; subst sh.
  unfold classify, select_frame, check_dimensions, np_squeeze; simpl.
  rewrite !filter_cons.
  split; [|split].
  - intros HH HW.
    destruct (decide (H ≠ 1%nat)); [|lia].
    destruct (decide (W ≠ 1%nat)); [|lia]. simpl.
    destruct (Nat.ltb_spec 1 H); [|lia]. reflexivity.
  - intros -> HW. destruct (decide (W ≠ 1%nat)); [reflexivity|lia].
  - intros HH ->. destruct (decide (H ≠ 1%nat)); [reflexivity|lia].
Qed.

Lemma colour_image_layout_witness :
  classify (mk_ndarray [1; 2; 3]%nat [1; 2; 3; 4; 5; 6]%Q)
  = Single2D [2; 3]%nat.
Proof.
  apply (proj1 (proj2 (colour_image_layout
                         (mk_ndarray [1; 2; 3]%nat [1; 2; 3; 4; 5; 6]%Q)
                         1 2 eq_refl))); [reflexivity | lia].
Defined.

(** X13: Layouts that are refused: a 1-D buffer that is not a single value (a
    waveform), every buffer with four or more axes longer than one, and a
    volume wrapped in a leading unit axis, which the squeeze turns into a
    3-D volume. *)
Theorem unsupported_layouts (a : ndarray Q) :
  (∀ n, shape a = [n] → n ≠ 1%nat →
        classify a = Unsupported (InvalidDimensions1D [n] [n])) ∧
  ((4 ≤ length (filter (λ d, d ≠ 1%nat) (shape a)))%nat →
   classify a
   = Unsupported (UnsupportedDimensions (filter (λ d, d ≠ 1%nat) (shape a)))) ∧
  (∀ N H W, shape a = [1%nat; N; H; W] →
            (2 ≤ N)%nat → (2 ≤ H)%nat → (2 ≤ W)%nat → W ≠ 3%nat →
            classify a = Unsupported (UnsupportedVolume [N; H; W])).
Proof.
  destruct a as [sh da]; simpl. split; [|split].
  - intros n -> Hn.
    unfold classify, select_frame, check_dimensions, np_squeeze; simpl.
    rewrite filter_cons. destruct (decide (n ≠ 1%nat)); [reflexivity|contradiction].
  - intros Hlen.
    pose proof (length_filter (λ d, d ≠ 1%nat) sh) as Hle.
    assert (Hsel : select_frame (mk_ndarray sh da) None
                   = Ok (Some (mk_ndarray sh da), 1%nat)).
    { unfold select_frame; simpl.
      destruct sh as [|n [|h [|w [|x sh]]]]; simpl in *; try reflexivity; lia. }
    unfold classify. rewrite Hsel.
    unfold check_dimensions, np_squeeze; simpl.
    destruct (filter (λ d, d ≠ 1%nat) sh) as [|n [|h [|w [|x sq]]]];
      simpl in *; try lia. reflexivity.
  - intros N H W -> HN HH HW HW3.
    unfold classify, select_frame, check_dimensions, np_squeeze; simpl.
    rewrite !filter_cons.
    destruct (decide (N ≠ 1%nat)); [|lia].
    destruct (decide (H ≠ 1%nat)); [|lia].
    destruct (decide (W ≠ 1%nat)); [|lia]. simpl.
    destruct (Nat.ltb_spec 1 N); [|lia].
    destruct (Nat.eqb_spec W 3); [contradiction|]. reflexivity.
Qed.

Lemma unsupported_layouts_witness :
  classify (mk_ndarray [7]%nat [1; 2; 3; 4; 5; 6; 7]%Q)
  = Unsupported (InvalidDimensions1D [7]%nat [7]%nat).
Proof.
  apply (proj1 (unsupported_layouts
                  (mk_ndarray [7]%nat [1; 2; 3; 4; 5; 6; 7]%Q)));
    [reflexivity | lia].
Defined.

(** ** More on the frame loop *)

Section BatchOutputs.

Variable tile_frame : Z → Raster → TileOutcome.
Variable ds : Dataset.

(** A frame whose extraction raises leaves no output. *)
Lemma try_frame_written (i : Z) :
  (try_frame tile_frame ds i = Tiled ∨
   try_frame tile_frame ds i = TileFailed true) →
  ∃ r total, dicom_to_image ds (Some i) = Ok (Some r, total).
Proof.
  unfold try_frame.
  destruct (dicom_to_image ds (Some i)) as [[[r|] total]|];
    intros [H|H]; try discriminate; eauto.
Qed.

(** Outputs that the loop adds belong to visited frames that were
    extracted. *)
Lemma frame_loop_new_outputs (frames : list Z) :
  ∀ (st : BatchState) (i : Z),
    i ∈ outputs (foldl (process_frame tile_frame ds) st frames) →
    i ∈ outputs st ∨
    (i ∈ frames ∧ ∃ r total, dicom_to_image ds (Some i) = Ok (Some r, total)).
Proof.
  induction frames as [|k frames IH]; intros st i Hi; simpl in Hi; [now left|].
  destruct (IH _ _ Hi) as [Hst | (Hin & Hok)].
  - unfold process_frame in Hst.
    destruct (decide (k ∈ outputs st)); [now left|].
    destruct (try_frame tile_frame ds k) as [|[|]] eqn:Et; simpl in Hst;
      try (now left).
    + apply elem_of_union in Hst as [Hk|Hst]; [|now left].
      apply elem_of_singleton in Hk as ->. right.
      split; [now left|]. apply try_frame_written. auto.
    + apply elem_of_union in Hst as [Hk|Hst]; [|now left].
      apply elem_of_singleton in Hk as ->. right.
      split; [now left|]. apply try_frame_written. auto.
  - right. split; [now right | exact Hok].
Qed.

Lemma count_fate_zero (dir : gset Z) (f : FrameFate) (frames : list Z) :
  count_fate tile_frame ds dir f frames = 0%nat →
  ∀ i, i ∈ frames → fate tile_frame ds dir i ≠ f.
Proof.
  induction frames as [|k frames IH]; intros Hc i Hi; [inversion Hi|].
  rewrite count_fate_cons in Hc.
  destruct (decide (fate tile_frame ds dir k = f)) as [Hk|Hk]; [lia|].
  apply elem_of_cons in Hi as [->|Hi]; [exact Hk|]. apply IH; [lia|exact Hi].
Qed.

Lemma count_fate_none (dir : gset Z) (f : FrameFate) (frames : list Z) :
  (∀ i, i ∈ frames → fate tile_frame ds dir i ≠ f) →
  count_fate tile_frame ds dir f frames = 0%nat.
Proof.
  induction frames as [|k frames IH]; intros Hall; [reflexivity|].
  rewrite count_fate_cons.
  destruct (decide (fate tile_frame ds dir k = f)) as [Hk|Hk].
  - destruct (Hall k); [now left | exact Hk].
  - simpl. apply IH. intros i Hi. apply Hall. now right.
Qed.

End BatchOutputs.

(** A stack of several frames, seen from a call that extracts frame [i]. *)
Lemma stack_frame_in_range (ds : Dataset) (img : option Raster) (total : nat)
    (i : Z) (r : option Raster * nat) :
  dicom_to_image ds None = Ok (img, total) → total ≠ 1%nat →
  dicom_to_image ds (Some i) = Ok r → 0 ≤ i < Z.of_nat total.
Proof.
  intros Hfirst Hmulti Hi.
  apply dicom_to_image_inv in Hfirst as (sel & Hsel & _).
  destruct (select_frame_inv _ _ _ _ Hsel)
    as [(_ & -> & _) | (H & W & Hsh & HW & _)]; [contradiction|].
  destruct r as [ri ti].
  apply dicom_to_image_inv in Hi as (seli & Hseli & _).
  unfold select_frame in Hseli. rewrite Hsh in Hseli.
  apply Nat.eqb_neq in HW. rewrite HW in Hseli.
  destruct ((i <? 0) || (i >=? Z.of_nat total)) eqn:E; [discriminate|].
  apply orb_false_iff in E. rewrite Z.ltb_ge, Z.geb_leb, Z.leb_gt in E. lia.
Qed.

(** X16: In a batch run on a stack of several frames, every output that was not
    there before belongs to a requested frame whose index lies within the
    stack and whose extraction succeeded; nothing else is written. *)
Theorem batch_writes_only_extracted_frames
    (tile_frame : Z → Raster → TileOutcome) (ds : Dataset) (dir : gset Z)
    (stem : string) (output_name : option string) (tile_size quality : Z)
    (frame_number : option Z) (img : option Raster) (total : nat) :
  dicom_to_image ds None = Ok (img, total) → total ≠ 1%nat →
  ∃ m st,
    convert_dicom_multiframe tile_frame (Some ds) stem output_name
      tile_size quality frame_number dir = (Some m, st) ∧
    ∀ i, i ∈ outputs st → i ∉ dir →
      i ∈ frames_to_convert total frame_number ∧
      0 ≤ i < Z.of_nat total ∧
      ∃ r t, dicom_to_image ds (Some i) = Ok (Some r, t).
Proof.
  intros Hfirst Hmulti. unfold convert_dicom_multiframe. rewrite Hfirst.
  pose proof Hmulti as Hb. apply Nat.eqb_neq in Hb. rewrite Hb.
  eexists _, _. split; [reflexivity|]. intros i Hi Hnew.
  apply frame_loop_new_outputs in Hi as [Hi | (Hreq & r & t & Hok)];
    [contradiction|].
  split; [exact Hreq|]. split; [|eauto].
  apply (stack_frame_in_range ds img total i _ Hfirst Hmulti Hok).
Qed.

Lemma batch_writes_only_extracted_frames_witness :
  ∃ m st,
    convert_dicom_multiframe (tiles_failing_on [3; 7; 11])
      (Some (bare_dataset (stack 20))) "cine" None 256 90 None ∅
    = (Some m, st) ∧
    ∀ i, i ∈ outputs st → i ∉ (∅ : gset Z) → 0 ≤ i < 20.
Proof.
  assert (Hfirst : dicom_to_image (bare_dataset (stack 20)) None
                   = Ok (None, 20%nat)) by (vm_compute; reflexivity).
  assert (Hmulti : 20%nat ≠ 1%nat) by lia.
  destruct (batch_writes_only_extracted_frames (tiles_failing_on [3; 7; 11])
              (bare_dataset (stack 20)) ∅ "cine" None 256 90 None None 20
              Hfirst Hmulti)
    as (m & st & Hrun & Hout).
  exists m, st. split; [exact Hrun|]. intros i Hi Hnew.
  destruct (Hout i Hi Hnew) as (_ & Hrange & _). exact Hrange.
Defined.

Lemma batch_out_of_range_aux
    (tile_frame : Z → Raster → TileOutcome) (ds : Dataset) (dir : gset Z)
    (stem : string) (output_name : option string) (tile_size quality : Z)
    (k : Z) (img : option Raster) (total : nat) :
  dicom_to_image ds None = Ok (img, total) → total ≠ 1%nat →
  ¬ (0 ≤ k < Z.of_nat total) → k ∉ dir →
  ∃ m st,
    convert_dicom_multiframe tile_frame (Some ds) stem output_name
      tile_size quality (Some k) dir = (Some m, st) ∧
    converted_frames m = 0%nat ∧ extracted st = [k] ∧ outputs st = dir.
Proof.
  intros Hfirst Hmulti Hrange Hk.
  assert (Herr : ∃ e, dicom_to_image ds (Some k) = Err e).
  { destruct (dicom_to_image ds (Some k)) as [r|e] eqn:E; [|eauto].
    destruct Hrange.
    apply (stack_frame_in_range ds img total k r Hfirst Hmulti E). }
  destruct Herr as (e & Herr).
  unfold convert_dicom_multiframe. rewrite Hfirst.
  apply Nat.eqb_neq in Hmulti. rewrite Hmulti.
  eexists _, _. split; [reflexivity|]. simpl.
  unfold process_frame, try_frame. simpl. rewrite Herr.
  destruct (decide (k ∈ dir)); [contradiction|]. simpl. auto.
Qed.

(** X17: A requested frame index outside the stack does not abort the run: the
    frame is counted as failed, no output appears, and the series file is
    still written, with [converted_frames] 0. *)
Theorem batch_survives_out_of_range_frame
    (tile_frame : Z → Raster → TileOutcome) (ds : Dataset) (dir : gset Z)
    (stem : string) (output_name : option string) (tile_size quality : Z)
    (k : Z) (img : option Raster) (total : nat) :
  dicom_to_image ds None = Ok (img, total) → total ≠ 1%nat →
  ¬ (0 ≤ k < Z.of_nat total) → k ∉ dir →
  ∃ m st,
    convert_dicom_multiframe tile_frame (Some ds) stem output_name
      tile_size quality (Some k) dir = (Some m, st) ∧
    total_frames m = total ∧ converted_frames m = 0%nat ∧
    failed_count st = 1%nat ∧ extracted st = [k] ∧ outputs st = dir.
Proof.
  intros Hfirst Hmulti Hrange Hk.
  assert (Herr : ∃ e, dicom_to_image ds (Some k) = Err e).
  { destruct (dicom_to_image ds (Some k)) as [r|e] eqn:E; [|eauto].
    destruct Hrange.
    apply (stack_frame_in_range ds img total k r Hfirst Hmulti E). }
  destruct Herr as (e & Herr).
  unfold convert_dicom_multiframe. rewrite Hfirst.
  apply Nat.eqb_neq in Hmulti. rewrite Hmulti.
  eexists _, _. split; [reflexivity|]. simpl.
  unfold process_frame, try_frame. simpl. rewrite Herr.
  destruct (decide (k ∈ dir)); [contradiction|]. simpl. auto.
Qed.

Lemma batch_survives_out_of_range_frame_witness :
  ∃ m st,
    convert_dicom_multiframe (tiles_failing_on [])
      (Some (bare_dataset (stack 20))) "cine" None 256 90 (Some 20) ∅
    = (Some m, st) ∧
    converted_frames m = 0%nat ∧ failed_count st = 1%nat.
Proof.
  assert (Hfirst : dicom_to_image (bare_dataset (stack 20)) None
                   = Ok (None, 20%nat)) by (vm_compute; reflexivity).
  assert (Hmulti : 20%nat ≠ 1%nat) by lia.
  assert (Hrange : ¬ (0 ≤ 20 < Z.of_nat 20)) by lia.
  assert (Hk : 20 ∉ (∅ : gset Z)) by apply not_elem_of_empty.
  destruct (batch_survives_out_of_range_frame (tiles_failing_on [])
              (bare_dataset (stack 20)) ∅ "cine" None 256 90 20 None 20
              Hfirst Hmulti Hrange Hk)
    as (m & st & Hrun & _ & Hc & Hf & _).
  exists m, st. auto.
Defined.

Lemma list_filter_nil_iff_aux {A} (P : A → Prop) `{∀ x, Decision (P x)}
    (l : list A) :
  (∀ x, x ∈ l → ¬ P x) → filter P l = [].
Proof.
  induction l as [|a l IH]; intros Hall; [reflexivity|].
  rewrite filter_cons. destruct (decide (P a)) as [p|p].
  - destruct (Hall a); [now left | exact p].
  - apply IH. intros x Hx. apply Hall. now right.
Qed.

(** X18: Running the batch again after a run without failures does nothing but
    rewrite the series file: every requested frame is skipped, no frame is
    extracted, the outputs stay, and the new series file reports
    [converted_frames] 0, whatever the collaborators would do now. *)
Theorem rerun_after_clean_run_converts_nothing
    (tile_frame tile_frame' : Z → Raster → TileOutcome)
    (ds : Dataset) (dir : gset Z)
    (stem : string) (output_name : option string) (tile_size quality : Z)
    (frame_number : option Z) (img : option Raster) (total : nat)
    (m1 : option SeriesManifest) (st1 : BatchState) :
  dicom_to_image ds None = Ok (img, total) → total ≠ 1%nat →
  convert_dicom_multiframe tile_frame (Some ds) stem output_name
    tile_size quality frame_number dir = (m1, st1) →
  failed_count st1 = 0%nat →
  ∃ m2 st2,
    convert_dicom_multiframe tile_frame' (Some ds) stem output_name
      tile_size quality frame_number (outputs st1) = (Some m2, st2) ∧
    extracted st2 = [] ∧ converted_frames m2 = 0%nat ∧
    failed_count st2 = 0%nat ∧ outputs st2 = outputs st1.
Proof.
  intros Hfirst Hmulti Hrun1 Hclean.
  destruct (multiframe_run tile_frame ds dir stem output_name tile_size
              quality frame_number img total Hfirst Hmulti)
    as (m & st & Hrun & _ & _ & _ & Hf & _ & Ho & Hk).
  rewrite Hrun in Hrun1. injection Hrun1 as <- <-.
  set (requested := frames_to_convert total frame_number) in *.
  assert (Hall : ∀ i, i ∈ requested → i ∈ outputs st).
  { intros i Hi. rewrite Hclean in Hf. symmetry in Hf.
    pose proof (count_fate_zero tile_frame ds dir Failed requested Hf i Hi) as Hnf.
    destruct (fate tile_frame ds dir i) eqn:Ef; [|now apply Hk|contradiction].
    apply Ho. unfold fate in Ef.
    destruct (decide (i ∈ dir)); [assumption|].
    destruct (try_frame tile_frame ds i); discriminate. }
  assert (Hskip : ∀ i, i ∈ requested →
            fate tile_frame' ds (outputs st) i = Skipped).
  { intros i Hi. unfold fate. now rewrite decide_True by auto. }
  destruct (multiframe_run tile_frame' ds (outputs st) stem output_name
              tile_size quality frame_number img total Hfirst Hmulti)
    as (m2 & st2 & Hrun2 & _ & Hm2 & Hc2 & Hf2 & He2 & Ho2 & _).
  fold requested in Hc2, Hf2, He2.
  exists m2, st2. split; [exact Hrun2|]. repeat split.
  - rewrite He2. apply list_filter_nil_iff_aux. intros i Hi Hni.
    apply Hni. now apply Hall.
  - rewrite Hm2, Hc2. apply count_fate_none. intros i Hi.
    rewrite (Hskip i Hi). discriminate.
  - rewrite Hf2. apply count_fate_none. intros i Hi.
    rewrite (Hskip i Hi). discriminate.
  - apply set_eq. intros i. split; [|apply Ho2].
    intros Hi. unfold convert_dicom_multiframe in Hrun2.
    rewrite Hfirst in Hrun2.
    destruct (total =? 1)%nat; [discriminate|].
    injection Hrun2 as _ <-.
    apply frame_loop_new_outputs in Hi as [Hi | (Hreq & _)]; [exact Hi|].
    now apply Hall.
Qed.

Lemma rerun_after_clean_run_converts_nothing_witness :
  let run1 :=
    convert_dicom_multiframe (tiles_failing_on [])
      (Some (bare_dataset (stack 3))) "cine" None 256 90 None ∅ in
  ∃ m2 st2,
    convert_dicom_multiframe (tiles_failing_on [])
      (Some (bare_dataset (stack 3))) "cine" None 256 90 None
      (outputs (snd run1)) = (Some m2, st2) ∧
    extracted st2 = [] ∧ converted_frames m2 = 0%nat.
Proof.
  intros run1.
  assert (Hfirst : dicom_to_image (bare_dataset (stack 3)) None
                   = Ok (None, 3%nat)) by (vm_compute; reflexivity).
  assert (Hmulti : 3%nat ≠ 1%nat) by lia.
  assert (Hclean : failed_count (snd run1) = 0%nat) by (vm_compute; reflexivity).
  destruct (rerun_after_clean_run_converts_nothing
              (tiles_failing_on []) (tiles_failing_on [])
              (bare_dataset (stack 3)) ∅ "cine" None 256 90 None None 3
              (fst run1) (snd run1) Hfirst Hmulti
              (surjective_pairing run1) Hclean)
    as (m2 & st2 & Hrun2 & He & Hc & _).
  exists m2, st2. auto.
Defined.

(** ** [convert_dicom_to_dzi] *)

Lemma answered_yes_iff (response : string) :
  answered_yes response = true ↔ response = "y" ∨ response = "Y".
Proof.
  unfold answered_yes. rewrite orb_true_iff, !String.eqb_eq. reflexivity.
Qed.

(** X20: An existing output is never replaced unless the answer to the prompt
    is "y" or "Y": with any other answer the call returns [False] and
    nothing is handed to the collaborators, whatever the input file. *)
Theorem existing_output_is_kept_without_consent
    (tile_image : Raster → TileOutcome) (file : InputFile) (response : string) :
  response ≠ "y" → response ≠ "Y" →
  let run := convert_dicom_to_dzi tile_image file true response in
  returned run = false ∧ handed_over run = None.
Proof.
  intros Hy HY.
  assert (Hno : answered_yes response = false).
  { destruct (answered_yes response) eqn:E; [|reflexivity].
    apply answered_yes_iff in E as [?|?]; contradiction. }
  unfold convert_dicom_to_dzi. destruct file; simpl; rewrite ?Hno; auto.
Qed.

Lemma existing_output_is_kept_without_consent_witness :
  returned (convert_dicom_to_dzi (λ _, Tiled) (Readable ct_slice) true "n")
  = false.
Proof.
  apply (existing_output_is_kept_without_consent
           (λ _, Tiled) (Readable ct_slice) "n"); discriminate.
Defined.

(** X21: When the call returns [True], the file was readable, the output was
    absent or the user agreed to replace it, and what the collaborators got
    and finished is exactly the raster that [dicom_to_image] computes
    without a frame request, for a frame count of 1. *)
Theorem single_conversion_success
    (tile_image : Raster → TileOutcome) (file : InputFile)
    (dzi_exists : bool) (response : string) :
  returned (convert_dicom_to_dzi tile_image file dzi_exists response) = true →
  ∃ ds image,
    file = Readable ds ∧
    (dzi_exists = false ∨ response = "y" ∨ response = "Y") ∧
    dicom_to_image ds None = Ok (Some image, 1%nat) ∧
    tile_image image = Tiled ∧
    handed_over (convert_dicom_to_dzi tile_image file dzi_exists response)
    = Some image.
Proof.
  unfold convert_dicom_to_dzi.
  destruct file as [| |ds]; try discriminate.
  - destruct (dzi_exists && negb (answered_yes response)); discriminate.
  - destruct (dzi_exists && negb (answered_yes response)) eqn:Eask;
      [discriminate|].
    destruct (dicom_to_image ds None) as [[[image|] total]|] eqn:Eimg;
      try discriminate.
    destruct (tile_image image) eqn:Etile; [|discriminate].
    intros _. exists ds, image. split; [reflexivity|]. split.
    + apply andb_false_iff in Eask as [->|Eyes]; [now left|]. right.
      apply negb_false_iff in Eyes. now apply answered_yes_iff.
    + assert (total = 1%nat) as ->.
      { apply (image_without_request_has_one_frame ds image total Eimg). }
      auto.
Qed.

Lemma single_conversion_success_witness :
  ∃ ds image,
    Readable ct_slice = Readable ds ∧
    dicom_to_image ds None = Ok (Some image, 1%nat) ∧
    handed_over (convert_dicom_to_dzi (λ _, Tiled) (Readable ct_slice) true "Y")
    = Some image.
Proof.
  destruct (single_conversion_success (λ _, Tiled) (Readable ct_slice) true "Y"
              eq_refl)
    as (ds & image & Hfile & _ & Himg & _ & Hhand).
  exists ds, image. auto.
Defined.

(** X22: The two entry points never both convert the same file when no frame
    is chosen in the first: a dataset that [convert_dicom_to_dzi] converts
    gets no series file from [convert_dicom_multiframe], which processes no
    frame of it; and a dataset that gets a series file is refused by
    [convert_dicom_to_dzi] before anything is handed to the collaborators. *)
Theorem entry_points_exclude_each_other
    (tile_image : Raster → TileOutcome) (tile_frame : Z → Raster → TileOutcome)
    (ds : Dataset) (dzi_exists : bool) (response : string)
    (stem : string) (output_name : option string) (tile_size quality : Z)
    (frame_number : option Z) (dir : gset Z) :
  let single := convert_dicom_to_dzi tile_image (Readable ds) dzi_exists response in
  let batch := convert_dicom_multiframe tile_frame (Some ds) stem output_name
                 tile_size quality frame_number dir in
  (returned single = true →
   fst batch = None ∧ extracted (snd batch) = [] ∧ outputs (snd batch) = dir) ∧
  (is_Some (fst batch) → returned single = false ∧ handed_over single = None).
Proof.
  intros single batch. subst single batch.
  unfold convert_dicom_to_dzi, convert_dicom_multiframe.
  destruct (dicom_to_image ds None) as [[[image|] total]|] eqn:Eimg.
  - rewrite (image_without_request_has_one_frame ds image total Eimg).
    simpl. split; [auto|]. intros [m [=]].
  - split.
    + destruct (dzi_exists && negb (answered_yes response)); discriminate.
    + intros _. destruct (dzi_exists && negb (answered_yes response)); auto.
  - split.
    + destruct (dzi_exists && negb (answered_yes response)); discriminate.
    + intros [m [=]].
Qed.

Lemma entry_points_exclude_each_other_witness :
  returned (convert_dicom_to_dzi (λ _, Tiled)
              (Readable (bare_dataset (stack 20))) false "") = false.
Proof.
  apply (proj2 (entry_points_exclude_each_other (λ _, Tiled)
                  (tiles_failing_on []) (bare_dataset (stack 20)) false ""
                  "cine" None 256 90 None ∅)).
  vm_compute. eauto.
Defined.

(** ** [main] *)

(** X23: A frame number outside the stack is not reported as an error by the
    program: with a valid quality, [--frame k] runs the batch conversion
    for frame [k] alone (also when [--all-frames] is given), the series
    file says that 0 frames were converted, and the exit status is 0. *)
Theorem main_exits_0_for_out_of_range_frame
    (tile_frame : Z → Raster → TileOutcome) (tile_image : Raster → TileOutcome)
    (args : Args) (ds : Dataset) (stem : string) (dir : gset Z)
    (dzi_exists : bool) (response : string)
    (k : Z) (img : option Raster) (total : nat) :
  1 ≤ arg_quality args ≤ 100 → arg_frame args = Some k →
  dicom_to_image ds None = Ok (img, total) → total ≠ 1%nat →
  ¬ (0 ≤ k < Z.of_nat total) → k ∉ dir →
  let run := main tile_frame tile_image args (Readable ds) stem dir
               dzi_exists response in
  exit_code run = 0 ∧
  ∃ m st, run = RanMultiframe (Some m) st ∧
          converted_frames m = 0%nat ∧ extracted st = [k] ∧ outputs st = dir.
Proof.
  intros Hq Hframe Hfirst Hmulti Hrange Hk run. subst run. unfold main.
  replace ((1 <=? arg_quality args) && (arg_quality args <=? 100)) with true
    by (symmetry; apply andb_true_iff; rewrite !Z.leb_le; lia).
  rewrite Hframe.
  replace (arg_all_frames args || bool_decide (is_Some (Some k))) with true
    by (rewrite bool_decide_true by eauto; now rewrite orb_true_r).
  change (loaded (Readable ds)) with (Some ds). cbv iota.
  destruct (batch_out_of_range_aux tile_frame ds dir stem (arg_output_name args)
              (arg_tile_size args) (arg_quality args) k img total
              Hfirst Hmulti Hrange Hk)
    as (m & st & Hrun & Hc & He & Ho).
  rewrite Hrun. split; [reflexivity|]. exists m, st. auto.
Qed.

Lemma main_exits_0_for_out_of_range_frame_witness :
  exit_code
    (main (tiles_failing_on []) (λ _, Tiled)
       (mk_Args None 256 90 1 true (Some 20))
       (Readable (bare_dataset (stack 20))) "cine" ∅ false "") = 0.
Proof.
  assert (Hfirst : dicom_to_image (bare_dataset (stack 20)) None
                   = Ok (None, 20%nat)) by (vm_compute; reflexivity).
  assert (Hmulti : 20%nat ≠ 1%nat) by lia.
  assert (Hrange : ¬ (0 ≤ 20 < Z.of_nat 20)) by lia.
  assert (Hk : 20 ∉ (∅ : gset Z)) by apply not_elem_of_empty.
  assert (Hq : 1 ≤ arg_quality (mk_Args None 256 90 1 true (Some 20)) ≤ 100)
    by (simpl; lia).
  apply (main_exits_0_for_out_of_range_frame (tiles_failing_on []) (λ _, Tiled)
           (mk_Args None 256 90 1 true (Some 20)) (bare_dataset (stack 20))
           "cine" ∅ false "" 20 None 20 Hq eq_refl Hfirst Hmulti Hrange Hk).
Defined.

(** ** [format_bytes] *)

Lemma Qltb_true (x y : Q) : Qltb x y = true ↔ (x < y)%Q.
Proof.
  unfold Qltb. rewrite negb_true_iff. split.
  - intros E. apply Qnot_le_lt. intros H. apply Qle_bool_iff in H. congruence.
  - intros H. destruct (Qle_bool y x) eqn:E; [|reflexivity].
    apply Qle_bool_iff in E. lra.
Qed.

Lemma Qltb_false (x y : Q) : Qltb x y = false ↔ (y <= x)%Q.
Proof.
  unfold Qltb. rewrite negb_false_iff. apply Qle_bool_iff.
Qed.

(** X24: For a size below 2^53, what is printed is a value and a unit such that
    the value times the unit's power of 1024 is the size; the value is
    below 1024 for every unit but TB, and at least 1 for every unit
    but B. *)
Theorem format_bytes_scaling (n : Z) :
  0 ≤ n < 2 ^ 53 →
  ∃ (k : nat) (v : Q) (u : string),
    all_units !! k = Some u ∧
    format_bytes n = (format_1f v ++ " " ++ u)%string ∧
    (v * inject_Z (1024 ^ Z.of_nat k) == inject_Z n)%Q ∧
    ((k < 4)%nat → (v < 1024)%Q) ∧
    ((0 < k)%nat → (1 <= v)%Q).
Proof.
  intros _. unfold format_bytes, byte_units. simpl scale_to_unit.
  set (q := inject_Z n).
  destruct (Qltb q 1024) eqn:E0.
  { apply Qltb_true in E0. exists 0%nat, q, "B"%string.
    repeat split; try reflexivity; try lia; [|auto].
    change (inject_Z (1024 ^ Z.of_nat 0)) with 1%Q. ring. }
  apply Qltb_false in E0.
  destruct (Qltb (q / 1024) 1024) eqn:E1.
  { apply Qltb_true in E1. exists 1%nat, (q / 1024)%Q, "KB"%string.
    repeat split; try reflexivity; try lia; [|auto|].
    - change (inject_Z (1024 ^ Z.of_nat 1)) with 1024%Q. field.
    - intros _. apply Qle_shift_div_l; lra. }
  apply Qltb_false in E1.
  destruct (Qltb (q / 1024 / 1024) 1024) eqn:E2.
  { apply Qltb_true in E2. exists 2%nat, (q / 1024 / 1024)%Q, "MB"%string.
    repeat split; try reflexivity; try lia; [|auto|].
    - change (inject_Z (1024 ^ Z.of_nat 2)) with (1024 * 1024)%Q. field.
    - intros _. apply Qle_shift_div_l; lra. }
  apply Qltb_false in E2.
  destruct (Qltb (q / 1024 / 1024 / 1024) 1024) eqn:E3.
  { apply Qltb_true in E3.
    exists 3%nat, (q / 1024 / 1024 / 1024)%Q, "GB"%string.
    repeat split; try reflexivity; try lia; [|auto|].
    - change (inject_Z (1024 ^ Z.of_nat 3)) with (1024 * 1024 * 1024)%Q. field.
    - intros _. apply Qle_shift_div_l; lra. }
  apply Qltb_false in E3.
  exists 4%nat, (q / 1024 / 1024 / 1024 / 1024)%Q, "TB"%string.
  repeat split; try reflexivity; try lia.
  - change (inject_Z (1024 ^ Z.of_nat 4)) with (1024 * 1024 * 1024 * 1024)%Q.
    field.
  - intros _. apply Qle_shift_div_l; lra.
Qed.

Lemma format_bytes_scaling_witness :
  ∃ (k : nat) (v : Q) (u : string),
    all_units !! k = Some u ∧
    format_bytes 1536 = (format_1f v ++ " " ++ u)%string ∧
    (v * inject_Z (1024 ^ Z.of_nat k) == inject_Z 1536)%Q.
Proof.
  assert (Hn : 0 ≤ 1536 < 2 ^ 53) by lia.
  destruct (format_bytes_scaling 1536 Hn) as (k & v & u & H1 & H2 & H3 & _).
  exists k, v, u. auto.
Defined.

Lemma round_half_even_comp (x y : Q) :
  (x == y)%Q → round_half_even x = round_half_even y.
Proof.
  intros Hxy. unfold round_half_even.
  rewrite (Qfloor_comp x y Hxy).
  assert (Hc : (x - inject_Z (Qfloor y) ?= 1 # 2)%Q
               = (y - inject_Z (Qfloor y) ?= 1 # 2)%Q).
  { apply Qcompare_comp; [|reflexivity]. now rewrite Hxy. }
  now rewrite Hc.
Qed.

Lemma round_half_even_Z (z : Z) : round_half_even (inject_Z z) = z.
Proof.
  unfold round_half_even. rewrite Qfloor_Z.
  destruct (Qcompare_spec (inject_Z z - inject_Z z) (1 # 2)) as [H|H|H];
    [exfalso; lra | reflexivity | exfalso; lra].
Qed.

Lemma string_app_assoc (s1 s2 s3 : string) :
  ((s1 ++ s2) ++ s3 = s1 ++ (s2 ++ s3))%string.
Proof.
  induction s1 as [|c s1 IH]; [reflexivity|].
  change (String c ((s1 ++ s2) ++ s3) = String c (s1 ++ (s2 ++ s3)))%string.
  now rewrite IH.
Qed.

(** X25: A size below 1024 bytes is printed as the byte count itself, followed
    by ".0 B". *)
Theorem format_bytes_below_1024 (n : Z) :
  0 ≤ n < 1024 → format_bytes n = (pretty n ++ ".0 B")%string.
Proof.
  intros Hn. unfold format_bytes, byte_units. simpl scale_to_unit.
  assert (Hlt : Qltb (inject_Z n) 1024 = true).
  { apply Qltb_true. change 1024%Q with (inject_Z 1024).
    rewrite <- Zlt_Qlt. lia. }
  rewrite Hlt. unfold format_1f.
  assert (Hsign : Qltb (inject_Z n) 0 = false).
  { apply Qltb_false. change 0%Q with (inject_Z 0). rewrite <- Zle_Qle. lia. }
  rewrite Hsign.
  assert (Hten : (Qabs (inject_Z n) * 10 == inject_Z (n * 10))%Q).
  { rewrite Qabs_pos.
    - rewrite inject_Z_mult. reflexivity.
    - change 0%Q with (inject_Z 0). rewrite <- Zle_Qle. lia. }
  rewrite (round_half_even_comp _ _ Hten), round_half_even_Z.
  rewrite Z.div_mul by lia. rewrite Z.mod_mul by lia.
  change (pretty 0) with "0"%string.
  change ((pretty n ++ ".0") ++ " B" = pretty n ++ ".0 B")%string.
  rewrite string_app_assoc. reflexivity.
Qed.

Lemma format_bytes_below_1024_witness :
  format_bytes 512 = (pretty 512 ++ ".0 B")%string.
Proof.
  apply (format_bytes_below_1024 512). lia.
Defined.

(** ** Conversions that succeed once the rescale and window stage has passed *)

Lemma squeeze_keeps_2d (H W : nat) :
  (2 ≤ H)%nat → (2 ≤ W)%nat →
  filter (λ d, d ≠ 1%nat) [H; W] = [H; W].
Proof.
  intros HH HW. rewrite !filter_cons.
  destruct (decide (H ≠ 1%nat)); [|lia].
  destruct (decide (W ≠ 1%nat)); [|lia]. reflexivity.
Qed.

(** The stages after frame selection, on a 2-D array with at least two
    rows and two columns that passes the rescale and window stage. *)
Lemma convert_2d_array (ds : Dataset) (a : ndarray Q) (H W : nat) (px : list Q) :
  shape a = [H; W] → (2 ≤ H)%nat → (2 ≤ W)%nat → well_formed a →
  radiometric_transform ds (data a) = Ok px →
  ∃ raster,
    check_dimensions (shape (pixel_array ds)) a = Ok (mk_ndarray [H; W] (data a)) ∧
    normalize px (photometric_of ds) = Ok raster ∧
    length raster = (H * W)%nat.
Proof.
  intros Hsh HH HW Hwf Hpx.
  pose proof (radiometric_transform_length ds (data a) px Hpx) as Hlen.
  assert (Hsize : length px = (H * W)%nat).
  { rewrite Hlen, Hwf, Hsh. simpl. lia. }
  assert (Hne : px ≠ []).
  { intros ->. simpl in Hsize. nia. }
  destruct (normalize_to_uint8_ok px Hne) as (r0 & Hr0).
  exists (apply_photometric (photometric_of ds) r0).
  split; [|split].
  - unfold check_dimensions, np_squeeze. rewrite Hsh.
    rewrite (squeeze_keeps_2d H W HH HW). reflexivity.
  - unfold normalize. now rewrite Hr0.
  - rewrite apply_photometric_length.
    rewrite (normalize_to_uint8_length px r0 Hr0). exact Hsize.
Qed.

(** X14: A well-formed 2-D image with at least two rows and two columns
    on which the rescale and window stage (lines 130-148) raises nothing
    reaches line 165 as a grey raster of the same shape, with a frame count
    of 1, whether or not a frame was requested: neither the frame
    selection, nor the dimension checks, nor the normalisation can raise
    on it. *)
Theorem grey_image_is_converted
    (ds : Dataset) (frame_index : option Z) (H W : nat) (px : list Q) :
  shape (pixel_array ds) = [H; W] → (2 ≤ H)%nat → (2 ≤ W)%nat →
  well_formed (pixel_array ds) →
  radiometric_transform ds (data (pixel_array ds)) = Ok px →
  ∃ raster,
    dicom_to_image ds frame_index
    = Ok (Some (mk_Raster L (mk_ndarray [H; W] raster)), 1%nat) ∧
    length raster = (H * W)%nat.
Proof.
  intros Hsh HH HW Hwf Hpx.
  destruct (convert_2d_array ds (pixel_array ds) H W px Hsh HH HW Hwf Hpx)
    as (raster & Hcheck & Hnorm & Hlen).
  exists raster. split; [|exact Hlen].
  unfold dicom_to_image, select_frame. rewrite Hsh. simpl.
  rewrite Hsh in Hcheck. rewrite Hcheck. simpl. rewrite Hpx. simpl.
  rewrite Hnorm. reflexivity.
Qed.

Lemma grey_image_is_converted_witness :
  ∃ raster,
    dicom_to_image ct_slice None
    = Ok (Some (mk_Raster L (mk_ndarray [2; 2]%nat raster)), 1%nat).
Proof.
  assert (Hwf : well_formed (pixel_array ct_slice)) by reflexivity.
  assert (Hpx : radiometric_transform ct_slice (data (pixel_array ct_slice))
                = Ok (map (λ raw, np_clip (40 - 400 / 2) (40 + 400 / 2)
                                    (raw * 1 + -1024)%Q)
                        [1000; 0; 2000; 1100]%Q)) by reflexivity.
  destruct (grey_image_is_converted ct_slice None 2 2 _ eq_refl
              (le_n 2) (le_n 2) Hwf Hpx) as (raster & Hrun & _).
  exists raster. exact Hrun.
Defined.

Lemma convert_stack_frame (ds : Dataset) (i : Z) (N H W : nat) (px : list Q) :
  shape (pixel_array ds) = [N; H; W] → W ≠ 3%nat →
  (2 ≤ H)%nat → (2 ≤ W)%nat → well_formed (pixel_array ds) →
  0 ≤ i < Z.of_nat N →
  radiometric_transform ds (data (index0 (pixel_array ds) (Z.to_nat i)))
  = Ok px →
  ∃ raster,
    normalize px (photometric_of ds) = Ok raster ∧
    dicom_to_image ds (Some i)
    = Ok (Some (mk_Raster L (mk_ndarray [H; W] raster)), N) ∧
    length raster = (H * W)%nat.
Proof.
  intros Hsh HW3 HH HW Hwf Hi Hpx.
  remember (index0 (pixel_array ds) (Z.to_nat i)) as frame eqn:Hframe.
  assert (Hfsh : shape frame = [H; W]).
  { rewrite Hframe. unfold index0. now rewrite Hsh. }
  assert (Hfwf : well_formed frame).
  { rewrite Hframe. apply (index0_well_formed _ N H W); [assumption..|lia]. }
  destruct (convert_2d_array ds frame H W px Hfsh HH HW Hfwf Hpx)
    as (raster & Hcheck & Hnorm & Hlen).
  exists raster. split; [exact Hnorm|].
  split; [|exact Hlen].
  unfold dicom_to_image, select_frame. rewrite Hsh.
  apply Nat.eqb_neq in HW3. rewrite HW3.
  replace ((i <? 0) || (i >=? Z.of_nat N)) with false
    by (symmetry; apply orb_false_iff; rewrite Z.ltb_ge, Z.geb_leb, Z.leb_gt; lia).
  rewrite <- Hframe. rewrite Hsh in Hcheck. simpl. rewrite Hcheck. simpl.
  rewrite Hpx. simpl. rewrite Hnorm. reflexivity.
Qed.

(** X15: Every frame of a well-formed stack with at least two rows and two
    columns per frame can be extracted: for an index within the stack on
    whose frame the rescale and window stage (lines 130-148) raises
    nothing, the function reaches line 165 with a grey raster of the
    frame's shape and returns the number of frames with it. *)
Theorem stack_frame_is_converted
    (ds : Dataset) (i : Z) (N H W : nat) (px : list Q) :
  shape (pixel_array ds) = [N; H; W] → W ≠ 3%nat →
  (2 ≤ H)%nat → (2 ≤ W)%nat → well_formed (pixel_array ds) →
  0 ≤ i < Z.of_nat N →
  radiometric_transform ds (data (index0 (pixel_array ds) (Z.to_nat i)))
  = Ok px →
  ∃ raster,
    dicom_to_image ds (Some i)
    = Ok (Some (mk_Raster L (mk_ndarray [H; W] raster)), N) ∧
    length raster = (H * W)%nat.
Proof.
  intros Hsh HW3 HH HW Hwf Hi Hpx.
  destruct (convert_stack_frame ds i N H W px Hsh HW3 HH HW Hwf Hi Hpx)
    as (raster & _ & Hrun & Hlen).
  exists raster. auto.
Qed.

Lemma stack_frame_is_converted_witness :
  ∃ raster,
    dicom_to_image (bare_dataset (stack 3)) (Some 2)
    = Ok (Some (mk_Raster L (mk_ndarray [2; 2]%nat raster)), 3%nat).
Proof.
  assert (Hwf : well_formed (pixel_array (bare_dataset (stack 3))))
    by reflexivity.
  assert (Hpx : radiometric_transform (bare_dataset (stack 3))
                  (data (index0 (pixel_array (bare_dataset (stack 3)))
                           (Z.to_nat 2)))
                = Ok (map inject_Z [8; 9; 10; 11])) by reflexivity.
  assert (HW3 : 2%nat ≠ 3%nat) by lia.
  assert (Hi : 0 ≤ 2 < Z.of_nat 3) by lia.
  destruct (stack_frame_is_converted (bare_dataset (stack 3)) 2 3 2 2 _ eq_refl
              HW3 (le_n 2) (le_n 2) Hwf Hi Hpx)
    as (raster & Hrun & _).
  exists raster. exact Hrun.
Defined.

Lemma list_filter_all_aux {A} (P : A → Prop) `{∀ x, Decision (P x)}
    (l : list A) :
  (∀ x, x ∈ l → P x) → filter P l = l.
Proof.
  induction l as [|a l IH]; intros Hall; [reflexivity|].
  rewrite filter_cons, decide_True by (apply Hall; now left).
  f_equal. apply IH. intros x Hx. apply Hall. now right.
Qed.

Lemma count_fate_all (tile_frame : Z → Raster → TileOutcome) (ds : Dataset)
    (dir : gset Z) (f : FrameFate) (frames : list Z) :
  (∀ i, i ∈ frames → fate tile_frame ds dir i = f) →
  count_fate tile_frame ds dir f frames = length frames.
Proof.
  induction frames as [|k frames IH]; intros Hall; [reflexivity|].
  rewrite count_fate_cons, decide_True by (apply Hall; now left).
  simpl. f_equal. apply IH. intros i Hi. apply Hall. now right.
Qed.

Lemma elem_of_range (n : nat) (i : Z) : i ∈ range n ↔ 0 ≤ i < Z.of_nat n.
Proof.
  unfold range. rewrite list_elem_of_fmap. split.
  - intros (k & -> & Hk). apply elem_of_seq in Hk. lia.
  - intros Hi. exists (Z.to_nat i). split; [lia|]. apply elem_of_seq. lia.
Qed.

(** X19: When the collaborators never fail, no output exists yet and the
    rescale and window stage (lines 130-148) raises on no frame, the batch
    conversion of a well-formed stack of N frames (N different from 1, at
    least two rows and two columns per frame) converts every frame: the
    series file reports N converted frames out of N, no failure is
    counted, each frame is extracted once, in order, and each frame has
    its output. *)
Theorem clean_batch_converts_every_frame
    (tile_frame : Z → Raster → TileOutcome) (ds : Dataset) (dir : gset Z)
    (stem : string) (output_name : option string) (tile_size quality : Z)
    (N H W : nat) :
  shape (pixel_array ds) = [N; H; W] → W ≠ 3%nat → N ≠ 1%nat →
  (2 ≤ H)%nat → (2 ≤ W)%nat → well_formed (pixel_array ds) →
  (∀ i, 0 ≤ i < Z.of_nat N →
        ∃ px, radiometric_transform ds
                (data (index0 (pixel_array ds) (Z.to_nat i))) = Ok px) →
  (∀ i r, tile_frame i r = Tiled) →
  (∀ i, 0 ≤ i < Z.of_nat N → i ∉ dir) →
  ∃ m st,
    convert_dicom_multiframe tile_frame (Some ds) stem output_name
      tile_size quality None dir = (Some m, st) ∧
    total_frames m = N ∧ converted_frames m = N ∧
    failed_count st = 0%nat ∧ extracted st = range N ∧
    ∀ i, 0 ≤ i < Z.of_nat N → i ∈ outputs st.
Proof.
  intros Hsh HW3 HN HH HW Hwf Hstage Htile Hfresh.
  assert (Hfirst : dicom_to_image ds None = Ok (None, N)).
  { unfold dicom_to_image, select_frame. rewrite Hsh.
    apply Nat.eqb_neq in HW3, HN. now rewrite HW3, HN. }
  assert (Hfate : ∀ i, i ∈ range N → fate tile_frame ds dir i = Converted).
  { intros i Hi. apply elem_of_range in Hi. unfold fate.
    rewrite decide_False by now apply Hfresh.
    destruct (Hstage i Hi) as (px & Hpx).
    destruct (convert_stack_frame ds i N H W px Hsh HW3 HH HW Hwf Hi Hpx)
      as (raster & _ & Hrun & _).
    unfold try_frame. rewrite Hrun. now rewrite Htile. }
  destruct (multiframe_run tile_frame ds dir stem output_name tile_size
              quality None None N Hfirst HN)
    as (m & st & Hrun & Htot & Hm & Hc & Hf & He & _ & Hk).
  simpl in Hc, Hf, He, Hk.
  exists m, st. split; [exact Hrun|]. split; [exact Htot|].
  assert (Hlen : length (range N) = N).
  { unfold range. now rewrite length_map, length_seq. }
  split; [|split; [|split]].
  - rewrite Hm, Hc, (count_fate_all _ _ _ _ _ Hfate). exact Hlen.
  - rewrite Hf. apply count_fate_none. intros i Hi.
    rewrite (Hfate i Hi). discriminate.
  - rewrite He. apply list_filter_all_aux. intros i Hi.
    apply Hfresh. now apply elem_of_range.
  - intros i Hi. apply elem_of_range in Hi. apply Hk; [exact Hi|].
    now apply Hfate.
Qed.

Lemma clean_batch_converts_every_frame_witness :
  ∃ m st,
    convert_dicom_multiframe (tiles_failing_on [])
      (Some (bare_dataset (stack 20))) "cine" None 256 90 None ∅
    = (Some m, st) ∧
    total_frames m = 20%nat ∧ converted_frames m = 20%nat.
Proof.
  assert (Hwf : well_formed (pixel_array (bare_dataset (stack 20))))
    by reflexivity.
  assert (Hstage : ∀ i, 0 ≤ i < Z.of_nat 20 →
            ∃ px, radiometric_transform (bare_dataset (stack 20))
                    (data (index0 (pixel_array (bare_dataset (stack 20)))
                             (Z.to_nat i))) = Ok px).
  { intros i _. eexists. reflexivity. }
  assert (HW3 : 2%nat ≠ 3%nat) by lia.
  assert (HN : 20%nat ≠ 1%nat) by lia.
  assert (Htile : ∀ i r, tiles_failing_on [] i r = Tiled).
  { intros i r. reflexivity. }
  assert (Hfresh : ∀ i, 0 ≤ i < Z.of_nat 20 → i ∉ (∅ : gset Z)).
  { intros i _. apply not_elem_of_empty. }
  destruct (clean_batch_converts_every_frame (tiles_failing_on [])
              (bare_dataset (stack 20)) ∅ "cine" None 256 90 20 2 2
              eq_refl HW3 HN (le_n 2) (le_n 2) Hwf Hstage Htile Hfresh)
    as (m & st & Hrun & Htot & Hc & _).
  exists m, st. auto.
Defined.
